(** * UmaScrape: the front end (API service, [useApiCall] hook, display
    components) and the race matcher of the extraction pipeline.

    The JavaScript of [frontend/src] is embedded as Rocq functions: values of
    the language as an inductive type, asynchronous calls as a small monad
    that records the requests sent and ends in a returned or a thrown value,
    React state as a record that the hook's operations transform, and rendered
    output as a tree of elements. *)

From Stdlib Require Import String Ascii List ZArith Bool Lia Arith.
From Stdlib Require Import DecimalString.
Import ListNotations.
Open Scope string_scope.
Set Warnings "-register-all".

(* ================================================================== *)
(** ** JavaScript values *)
(* ================================================================== *)

Module JS.

(** The values that travel through the front end: what JSON carries, plus
    [undefined].  [VNum n] stands for the integer [n], meant within the range
    that a JavaScript number holds exactly (up to 2^53 either way); the code
    below only tests numbers for truthiness and prints them. *)
Inductive value : Type :=
| VUndefined
| VNull
| VBool (b : bool)
| VNum (n : Z)
| VStr (s : string)
| VArr (items : list value)
| VObj (fields : list (string * value)).

(** How a statement ends: normally with a value, or with a thrown value. *)
Inductive completion (A : Type) : Type :=
| Return (a : A)
| Throw (err : value).
Arguments Return {A} a.
Arguments Throw {A} err.

(** ToBoolean: [undefined], [null], [false], [0] and [""] are falsy. *)
Definition truthy (v : value) : bool :=
  match v with
  | VUndefined | VNull => false
  | VBool b => b
  | VNum n => negb (n =? 0)%Z
  | VStr s => negb (String.eqb s "")
  | VArr _ | VObj _ => true
  end.

(** [a || b] *)
Definition jsOr (a b : value) : value := if truthy a then a else b.

Definition isNullish (v : value) : bool :=
  match v with
  | VUndefined | VNull => true
  | _ => false
  end.

Fixpoint lookup (k : string) (fields : list (string * value)) : option value :=
  match fields with
  | [] => None
  | (k', v) :: rest => if String.eqb k k' then Some v else lookup k rest
  end.

Definition string_of_Z (n : Z) : string := NilZero.string_of_int (Z.to_int n).

Fixpoint join (sep : string) (parts : list string) : string :=
  match parts with
  | [] => ""
  | [p] => p
  | p :: rest => p ++ sep ++ join sep rest
  end.

(** ToString.  An array prints its elements joined by commas, with [null]
    and [undefined] elements printed empty; a plain object prints as
    [[object Object]].  Not modelled: an object with an entry of its own
    called [toString] has no string form (the conversion throws); where that
    matters a statement asks for the converted values to be primitives. *)
Fixpoint ToString (v : value) : string :=
  match v with
  | VUndefined => "undefined"
  | VNull => "null"
  | VBool true => "true"
  | VBool false => "false"
  | VNum n => string_of_Z n
  | VStr s => s
  | VArr items =>
      join "," (map (fun x => if isNullish x then "" else ToString x) items)
  | VObj _ => "[object Object]"
  end.

(** An [Error] object: the only property the code reads is [message]. *)
Definition errorObject (name message : string) : value :=
  VObj [("name", VStr name); ("message", VStr message)].

(** [new Error(arg)]: the message is [ToString arg], and empty when the
    argument is [undefined]. *)
Definition newError (arg : value) : value :=
  errorObject "Error"
    (match arg with VUndefined => "" | _ => ToString arg end).

(** The [TypeError] of reading property [k] of [null] or [undefined]. *)
Definition typeError (base : value) (k : string) : value :=
  errorObject "TypeError"
    ("Cannot read properties of " ++ ToString base
       ++ " (reading '" ++ k ++ "')").

(** [base.k]: throws on [null] and [undefined]; a missing property reads as
    [undefined]; arrays and strings have a [length]. *)
Definition getProp (base : value) (k : string) : completion value :=
  match base with
  | VUndefined | VNull => Throw (typeError base k)
  | VObj fields =>
      Return (match lookup k fields with Some v => v | None => VUndefined end)
  | VArr items =>
      Return (if String.eqb k "length"
              then VNum (Z.of_nat (List.length items)) else VUndefined)
  | VStr s =>
      Return (if String.eqb k "length"
              then VNum (Z.of_nat (String.length s)) else VUndefined)
  | VBool _ | VNum _ => Return VUndefined
  end.

(** A string of ASCII characters only.  Strings here are sequences of
    bytes; on the ASCII strings the case and white space functions below are
    the JavaScript ones, and a statement that needs this says so. *)
Fixpoint isAscii (s : string) : bool :=
  match s with
  | EmptyString => true
  | String c rest => (nat_of_ascii c <? 128)%nat && isAscii rest
  end.

(** A value that is no array and no object. *)
Definition isPrimitive (v : value) : bool :=
  match v with
  | VArr _ | VObj _ => false
  | _ => true
  end.

(** [toUpperCase] on the ASCII letters; other characters are unchanged.
    This is the JavaScript method on strings of ASCII characters; the case
    mappings of letters outside ASCII are not modelled. *)
Definition upperAscii (c : ascii) : ascii :=
  let n := nat_of_ascii c in
  if ((97 <=? n) && (n <=? 122))%nat then ascii_of_nat (n - 32) else c.

Definition lowerAscii (c : ascii) : ascii :=
  let n := nat_of_ascii c in
  if ((65 <=? n) && (n <=? 90))%nat then ascii_of_nat (n + 32) else c.

Fixpoint mapString (f : ascii -> ascii) (s : string) : string :=
  match s with
  | EmptyString => EmptyString
  | String c rest => String (f c) (mapString f rest)
  end.

Definition toUpperCase (s : string) : string := mapString upperAscii s.
Definition toLowerCase (s : string) : string := mapString lowerAscii s.

End JS.

(* ================================================================== *)
(** ** The API service: [frontend/src/services/api.js] *)
(* ================================================================== *)

Module Api.
Import JS.

(** The part of an axios configuration that [api.js] sets. *)
Record axiosConfig : Type := {
  baseURL : value;
  timeout : Z;
  headers : list (string * string)
}.

Record axiosInstance : Type := { defaults : axiosConfig }.

(** What goes out on the wire for one call of the client. *)
Record request : Type := {
  config : axiosConfig;
  method : string;
  url : string;
  params : list (string * value)
}.

(** The backend and the network between: each request is answered by a
    response (the promise resolves) or by an error (it rejects). *)
Definition network : Type := request -> completion value.

(** An asynchronous computation: run against a network it sends requests,
    in order, and completes. *)
Definition Async (A : Type) : Type := network -> list request * completion A.

Definition ret {A} (a : A) : Async A := fun _ => ([], Return a).

Definition throw {A} (err : value) : Async A := fun _ => ([], Throw err).

Definition lift {A} (c : completion A) : Async A := fun _ => ([], c).

Definition bind {A B} (m : Async A) (k : A -> Async B) : Async B :=
  fun net =>
    match m net with
    | (sent, Return a) => let (sent', r) := k a net in ((sent ++ sent')%list, r)
    | (sent, Throw err) => (sent, Throw err)
    end.

Definition tryCatch {A} (body : Async A) (handler : value -> Async A)
  : Async A :=
  fun net =>
    match body net with
    | (sent, Return a) => (sent, Return a)
    | (sent, Throw err) =>
        let (sent', r) := handler err net in ((sent ++ sent')%list, r)
    end.

Notation "x <- m ;; k" := (bind m (fun x => k))
  (at level 61, m at next level, right associativity).

(** [base.k] inside an asynchronous function. *)
Definition prop (base : value) (k : string) : Async value :=
  lift (getProp base k).

(** [axios.create(config)] *)
Definition create (cfg : axiosConfig) : axiosInstance := {| defaults := cfg |}.

(** [instance.get(url)]: one request, with the instance's configuration and
    no parameters. *)
Definition get (inst : axiosInstance) (path : string) : Async value :=
  fun net =>
    let r := {| config := defaults inst; method := "get";
                url := path; params := [] |} in
    ([r], net r).

(** axios: a [timeout] of 0 never aborts; a positive one aborts the request
    after that many milliseconds. *)
Definition abortsAfter (cfg : axiosConfig) : option Z :=
  if (timeout cfg =? 0)%Z then None else Some (timeout cfg).

(** [const API_BASE_URL = import.meta.env.VITE_API_URL || '...'] *)
Definition API_BASE_URL (VITE_API_URL : value) : value :=
  jsOr VITE_API_URL (VStr "http://localhost:5000/api").

Definition api (VITE_API_URL : value) : axiosInstance :=
  create {| baseURL := API_BASE_URL VITE_API_URL;
            timeout := 30000;
            headers := [("Content-Type", "application/json")] |}.

Section Service.

Variable VITE_API_URL : value.

(** The [try] block of [fetchScrapedData]. *)
Definition scrapeTry : Async value :=
  response <- get (api VITE_API_URL) "/scrape" ;;
  data <- prop response "data" ;;
  success <- prop data "success" ;;
  if truthy success then
    prop data "data"
  else
    (error <- prop data "error" ;;
     throw (newError (jsOr error (VStr "Failed to fetch data")))).

(** Its [catch (error)] block. *)
Definition scrapeCatch (error : value) : Async value :=
  response <- prop error "response" ;;
  if truthy response then
    (data <- prop response "data" ;;
     msg <- prop data "error" ;;
     throw (newError (jsOr msg (VStr "Server error"))))
  else
    (req <- prop error "request" ;;
     if truthy req then
       throw (newError
                (VStr "No response from server. Is the backend running?"))
     else
       (msg <- prop error "message" ;;
        throw (newError msg))).

(** [fetchScrapedData]: declared without parameters, so whatever the caller
    passes ([args]) is not read. *)
Definition fetchScrapedData (args : list value) : Async value :=
  tryCatch scrapeTry scrapeCatch.

(** The request that [api.get('/scrape')] sends. *)
Definition scrapeRequest : request :=
  {| config := defaults (api VITE_API_URL); method := "get";
     url := "/scrape"; params := [] |}.

(** [checkHealth] *)
Definition checkHealth (args : list value) : Async value :=
  tryCatch
    (response <- get (api VITE_API_URL) "/health" ;;
     prop response "data")
    (fun error => throw (newError (VStr "Backend is not responding"))).

End Service.

(** The values that the [catch] block of [fetchScrapedData] may hand to
    [new Error] when it has caught [err]: [err.response.data.error] and
    [err.message], as far as they can be read. *)
Definition errorTexts (err : value) : list value :=
  (match getProp err "response" with
   | Return response =>
       match getProp response "data" with
       | Return data =>
           match getProp data "error" with
           | Return text => [text]
           | Throw _ => []
           end
       | Throw _ => []
       end
   | Throw _ => []
   end
   ++ match getProp err "message" with
      | Return text => [text]
      | Throw _ => []
      end)%list.

End Api.

(* ================================================================== *)
(** ** The [useApiCall] hook *)
(* ================================================================== *)

Module Hook.
Import JS Api.

(** The object held by [useState]. *)
Record apiState : Type := {
  data : value;
  loading : bool;
  error : value
}.

Definition initialState : apiState :=
  {| data := VNull; loading := false; error := VNull |}.

(** First statement of [execute]:
    [setState(prev => ({ ...prev, loading: true, error: null }))]. *)
Definition executeStart (prev : apiState) : apiState :=
  {| data := data prev; loading := true; error := VNull |}.

(** The rest of [execute], run when [await apiFunction(...args)] settles with
    [outcome] and the state is [s]: the new state, and how [execute] itself
    completes.  Reading [err.message] comes before the [setState] of the
    [catch] block, so when that read throws the state is left as it was. *)
Definition executeSettle (outcome : completion value) (s : apiState)
  : apiState * completion value :=
  match outcome with
  | Return result =>
      ({| data := result; loading := false; error := VNull |}, Return result)
  | Throw err =>
      match getProp err "message" with
      | Return m =>
          let errorMessage := jsOr m (VStr "An unexpected error occurred") in
          ({| data := VNull; loading := false; error := errorMessage |},
           Throw err)
      | Throw typeErr => (s, Throw typeErr)
      end
  end.

(** One whole call [execute(apiFunction, ...args)] with nothing else
    happening in between. *)
Definition execute (apiFunction : list value -> Async value)
    (args : list value) (net : network) (s : apiState)
  : apiState * list request * completion value :=
  let s1 := executeStart s in
  let (sent, outcome) := apiFunction args net in
  let (s2, r) := executeSettle outcome s1 in
  (s2, sent, r).

(** [reset] *)
Definition reset (s : apiState) : apiState :=
  {| data := VNull; loading := false; error := VNull |}.

(** A mounted hook: its state and the number of [execute] calls that have
    started and not yet settled.  Calls may overlap, and [reset] may come at
    any moment. *)
Record hook : Type := { state : apiState; pending : nat }.

Definition mounted : hook := {| state := initialState; pending := 0 |}.

Inductive step : hook -> hook -> Prop :=
| step_start (h : hook) :
    step h {| state := executeStart (state h); pending := S (pending h) |}
| step_settle (h : hook) (n : nat) (outcome : completion value) :
    pending h = S n ->
    step h {| state := fst (executeSettle outcome (state h)); pending := n |}
| step_reset (h : hook) :
    step h {| state := reset (state h); pending := pending h |}.

Inductive reachable : hook -> Prop :=
| reachable_mounted : reachable mounted
| reachable_step (h h' : hook) : reachable h -> step h h' -> reachable h'.

(** What holds of the state at every moment: not both a result and an error,
    and no error while loading. *)
Definition stateInvariant (s : apiState) : Prop :=
  (data s = VNull \/ error s = VNull)
  /\ (error s <> VNull -> loading s = false).

(** [App.handleSearch]: [execute(fetchScrapedData, searchQuery)] with the
    rejection caught and logged. *)
Definition handleSearch (VITE_API_URL : value) (searchQuery : string)
    (net : network) (s : apiState) : apiState * list request :=
  let '(s', sent, _) :=
    execute (fetchScrapedData VITE_API_URL) [VStr searchQuery] net s in
  (s', sent).

End Hook.

(* ================================================================== *)
(** ** The display components *)
(* ================================================================== *)

Module View.
Import JS.

(** Rendered output.  [NNull] is what [null], [undefined] and [false]
    render to. *)
Inductive node : Type :=
| NNull
| NText (s : string)
| NElem (tag : string) (attrs : list (string * string)) (children : list node)
| NFragment (children : list node).

Definition className (n : node) : option string :=
  match n with
  | NElem _ attrs _ =>
      (fix find (l : list (string * string)) : option string :=
         match l with
         | [] => None
         | (k, v) :: rest => if String.eqb k "className" then Some v else find rest
         end) attrs
  | _ => None
  end.

Definition hasClass (cls : string) (n : node) : bool :=
  match className n with
  | Some c => String.eqb c cls
  | None => false
  end.

Definition children (n : node) : list node :=
  match n with
  | NElem _ _ cs | NFragment cs => cs
  | _ => []
  end.

(** Every element of the tree, parents before children, left to right. *)
Fixpoint elements (n : node) : list node :=
  match n with
  | NElem _ _ cs => n :: flat_map elements cs
  | NFragment cs => flat_map elements cs
  | _ => []
  end.

Definition byClass (cls : string) (n : node) : list node :=
  filter (hasClass cls) (elements n).

(** [{s}] for a string that may be missing. *)
Definition textChild (s : option string) : node :=
  match s with
  | Some t => NText t
  | None => NNull
  end.

Fixpoint mapIndexFrom {A B} (i : nat) (f : A -> nat -> B) (l : list A) : list B :=
  match l with
  | [] => []
  | x :: rest => f x i :: mapIndexFrom (S i) f rest
  end.

(** [array.map((x, index) => ...)] *)
Definition mapIndex {A B} (f : A -> nat -> B) (l : list A) : list B :=
  mapIndexFrom 0 f l.

Definition keyOf (index : nat) : string := string_of_Z (Z.of_nat index).

(** *** [RankDisplay] *)

Definition getRankClass (rank : string) : string :=
  let rankUpper := toUpperCase rank in
  if String.eqb rankUpper "SS" then "rank-ss"
  else if String.eqb rankUpper "S" then "rank-s"
  else if String.eqb rankUpper "A" then "rank-a"
  else if String.eqb rankUpper "B" then "rank-b"
  else "rank-default".

(** Props are strings or [null] (here [None]). *)
Definition RankDisplay (rank characterName : option string) : node :=
  match rank with
  | None | Some "" => NNull
  | Some rank =>
      let rankClass := getRankClass rank in
      NElem "div" [("className", "rank-display-container")]
        [ NElem "div" [("className", "rank-badge " ++ rankClass)]
            [ NElem "div" [("className", "rank-label")] [NText "Overall Tier"];
              NElem "div" [("className", "rank-value")]
                [NText (toUpperCase rank)];
              NElem "div" [("className", "rank-sublabel")] [NText "Rank"] ];
          match characterName with
          | None => NNull
          | Some "" => NText ""
          | Some name =>
              NElem "div" [("className", "rank-description")]
                [ NElem "p" []
                    [ NText name; NText " is ranked ";
                      NElem "strong" [] [NText (toUpperCase rank)];
                      NText " tier in the current meta" ] ]
          end ]
  end.

(** *** [EventList] *)

Record event : Type := {
  event_name : string;
  conditions : string;
  effects : string
}.

(** An element of the [events] array: an event object or an array. *)
Inductive item : Type :=
| IEvent (e : event)
| IArray (items : list item).

(** [events.flat()]: one level. *)
Definition flat (events : list item) : list item :=
  flat_map (fun x => match x with IArray ys => ys | IEvent _ => [x] end) events.

(** [x.field] for an element: an array has none of the three fields. *)
Definition field (f : event -> string) (x : item) : option string :=
  match x with
  | IEvent e => Some (f e)
  | IArray _ => None
  end.

Definition eventSection (ev : item) (index : nat) : node :=
  NElem "div" [("key", keyOf index); ("className", "event-section")]
    [ NElem "h3" [("className", "event-title")]
        [textChild (field event_name ev)];
      NElem "table" [("className", "event-table")]
        [ NElem "thead" []
            [ NElem "tr" []
                [ NElem "th" [] [NText "Event Conditions"];
                  NElem "th" [] [NText "Event Effects"] ] ];
          NElem "tbody" []
            [ NElem "tr" []
                [ NElem "td" [("className", "conditions")]
                    [ NElem "div" [("className", "event-name-inline")]
                        [textChild (field event_name ev)];
                      NElem "div" [] [textChild (field conditions ev)] ];
                  NElem "td" [("className", "effects")]
                    [textChild (field effects ev)] ] ] ] ].

(** [events] is an array or missing ([None]); [title] a string or missing. *)
Definition EventList (events : option (list item)) (title : option string)
  : node :=
  match events with
  | None | Some [] => NElem "p" [] [NText "No events found"]
  | Some events =>
      let flatEvents := flat events in
      NFragment
        (match title with
         | None => NNull
         | Some "" => NText ""
         | Some t => NElem "h2" [("className", "character-name")] [NText t]
         end
         :: mapIndex eventSection flatEvents)
  end.

(** *** [RaceList] *)

Record raceCard : Type := {
  race : string;
  period : string;
  tier : string;
  distance : string;
  card_event_name : string
}.

Definition raceCardNode (m : raceCard) (index : nat) : node :=
  NElem "div" [("key", keyOf index); ("className", "race-card")]
    [ NElem "div" [("className", "race-tier")] [NText (tier m)];
      NElem "div" [("className", "race-name")] [NText (race m)];
      NElem "div" [("className", "race-details")]
        [ NElem "span" [("className", "race-period")] [NText (period m)];
          NElem "span" [("className", "race-distance")] [NText (distance m)] ];
      NElem "div" [("className", "race-event")]
        [NText "Event: "; NText (card_event_name m)] ].

Definition RaceList (races : option (list raceCard)) : node :=
  match races with
  | None | Some [] => NNull
  | Some races =>
      NElem "div" [("className", "races-section")]
        [ NElem "h3" [("className", "races-title")]
            [ NText "🏁 Races Mentioned in Events (";
              NText (string_of_Z (Z.of_nat (List.length races))); NText ")" ];
          NElem "div" [("className", "races-grid")]
            (mapIndex raceCardNode races) ]
  end.

(** *** Inputs of the declared shape

    [EventList.propTypes] lets an element of [events] be an event object or
    an array; here an array of event objects. *)
Definition nested : Type := list (event + list event).

Definition ofNested (input : nested) : list item :=
  map (fun x => match x with
                | inl e => IEvent e
                | inr es => IArray (map IEvent es)
                end)
      input.

(** The one-level flattening of such an input, as a list of events. *)
Definition flattenOnce (input : nested) : list event :=
  flat_map (fun x => match x with inl e => [e] | inr es => es end) input.

End View.

(* ================================================================== *)
(** ** The extraction core: parser fields and race matcher *)
(* ================================================================== *)

Module Core.
Import JS.

(** Modelled from the spec: the data model of section 3 (the scraper that
    holds it is not under src/). *)
Inductive period : Type := Early | Mid | Late | Unspecified.
Inductive tier : Type := G | F | E | D | C | B | A | S | SS.
Inductive distance : Type := Short | Mile | Medium | Long.

Record RaceDescriptor : Type := {
  name : string;
  racePeriod : period;
  raceTier : tier;
  raceDistance : distance
}.

Record EventRecord : Type := {
  eventName : string;
  eventConditions : string;
  eventEffects : string
}.

Record RaceMatch : Type := {
  matchRace : RaceDescriptor;
  matchEventName : string
}.

Definition RaceMatch_eq_dec (a b : RaceMatch) : {a = b} + {a <> b}.
Proof. repeat decide equality. Defined.

(** Equality of matches is equality of the (race, event name) pair. *)
Definition alreadyIn (m : RaceMatch) (matches : list RaceMatch) : bool :=
  if in_dec RaceMatch_eq_dec m matches then true else false.

(** [needle] occurs somewhere in [hay]. *)
Fixpoint includes (needle hay : string) : bool :=
  String.prefix needle hay
  || match hay with
     | EmptyString => false
     | String _ rest => includes needle rest
     end.

(** Modelled from the spec: the search text of an event (the matcher is not
    under src/).  Section 4.3: "concatenate its name, conditions, and effects
    into one search text"; the three parts follow one another with nothing in
    between. *)
Definition searchText (e : EventRecord) : string :=
  eventName e ++ eventConditions e ++ eventEffects e.

(** Modelled from the spec: the hit test of section 4.3, the race's name as
    a case-insensitive substring of the search text. *)
Definition mentions (e : EventRecord) (r : RaceDescriptor) : bool :=
  includes (toLowerCase (name r)) (toLowerCase (searchText e)).

(** Modelled from the spec: the body of the inner loop of section 4.3.  On a
    hit, RaceMatch(race, event.name) is appended unless an equal one is
    already in the accumulated result. *)
(** Modelled from the spec: "append a RaceMatch unless an equal RaceMatch
    already exists in the accumulated result" (section 4.3). *)
Definition appendNew (matches : list RaceMatch) (m : RaceMatch)
  : list RaceMatch :=
  if alreadyIn m matches then matches else (matches ++ [m])%list.

Definition matchOne (e : EventRecord) (matches : list RaceMatch)
    (r : RaceDescriptor) : list RaceMatch :=
  if mentions e r then
    appendNew matches {| matchRace := r; matchEventName := eventName e |}
  else matches.

(** Modelled from the spec: the matcher's two loops (section 4.3), events in
    page order outside, the catalog in catalog order inside, continuing from
    an accumulated result. *)
Definition matchInto (matches : list RaceMatch) (events : list EventRecord)
    (catalog : list RaceDescriptor) : list RaceMatch :=
  fold_left (fun acc e => fold_left (matchOne e) catalog acc) events matches.

(** Modelled from the spec: [match(events, catalog)] of section 4.3, which
    starts from an empty result. *)
Definition matchRaces (events : list EventRecord)
    (catalog : list RaceDescriptor) : list RaceMatch :=
  matchInto [] events catalog.

(** Modelled from the spec: the process-wide state of sections 3 and 5, the
    catalog loaded once at start; nothing else is shared between requests. *)
Record process : Type := { catalog : list RaceDescriptor }.

(** Modelled from the spec: one call of the matcher inside the process; it
    reads the catalog and hands the process state on. *)
Definition matchCall (events : list EventRecord) (p : process)
  : list RaceMatch * process :=
  (matchRaces events (catalog p), p).




(** The declarative reading of the matcher's result: every (race, event
    name) hit, events outside and catalog inside ... *)
Definition hits (events : list EventRecord) (catalog : list RaceDescriptor)
  : list RaceMatch :=
  flat_map
    (fun e =>
       map (fun r => {| matchRace := r; matchEventName := eventName e |})
           (filter (mentions e) catalog))
    events.

Definition differs (m x : RaceMatch) : bool :=
  if RaceMatch_eq_dec m x then false else true.

Definition fresh (acc : list RaceMatch) (x : RaceMatch) : bool :=
  negb (alreadyIn x acc).

(** ... of which only the first occurrence of each is kept. *)
Fixpoint keepFirst (l : list RaceMatch) : list RaceMatch :=
  match l with
  | [] => []
  | m :: rest => m :: filter (differs m) (keepFirst rest)
  end.

(** *** Parser fields *)

Definition tierTokens : list string :=
  ["G"; "F"; "E"; "D"; "C"; "B"; "A"; "S"; "SS"].

(** Modelled from the spec: rank extraction of section 4.2 (the parser is
    not under src/).  The argument is the text of the labeled tier indicator
    when the markup has one; it is compared case-insensitively with the tier
    tokens and stored upper-case.  Section 3 makes the rank a tier or absent,
    so a text that is no tier token gives no rank. *)
Definition extractRank (indicator : option string) : option string :=
  match indicator with
  | None => None
  | Some text =>
      let token := toUpperCase text in
      if existsb (String.eqb token) tierTokens then Some token else None
  end.

Definition isSpace (c : ascii) : bool :=
  let n := nat_of_ascii c in
  ((n =? 32) || (n =? 9) || (n =? 10) || (n =? 13))%nat.

Fixpoint trimStart (s : string) : string :=
  match s with
  | String c rest => if isSpace c then trimStart rest else s
  | EmptyString => EmptyString
  end.

Fixpoint reverse (acc s : string) : string :=
  match s with
  | EmptyString => acc
  | String c rest => reverse (String c acc) rest
  end.

Definition trim (s : string) : string :=
  reverse "" (trimStart (reverse "" (trimStart s))).

(** One block of the page that matches the training-event pattern: the text
    of its three parts, embedded markup already collapsed. *)
Record eventBlock : Type := {
  blockName : string;
  blockConditions : string;
  blockEffects : string
}.

(** Modelled from the spec: event extraction of section 4.2.  Each part is
    trimmed; a block whose name is empty is dropped. *)
Definition extractEvents (blocks : list eventBlock) : list EventRecord :=
  filter (fun e => negb (String.eqb (eventName e) ""))
    (map (fun b => {| eventName := trim (blockName b);
                      eventConditions := trim (blockConditions b);
                      eventEffects := trim (blockEffects b) |})
         blocks).

(** Modelled from the spec: the parse and match stages of section 2 for the
    event blocks of a page: the [events] and [matchingRaces] of the result. *)
Definition eventsAndMatches (blocks : list eventBlock)
    (catalog : list RaceDescriptor) : list EventRecord * list RaceMatch :=
  let events := extractEvents blocks in
  (events, matchRaces events catalog).

(** The transport form of the result's events, as the display components
    receive them. *)
Definition toItems (events : list EventRecord) : list View.item :=
  map (fun e => View.IEvent {| View.event_name := eventName e;
                               View.conditions := eventConditions e;
                               View.effects := eventEffects e |})
      events.

End Core.

(* ================================================================== *)
(** ** String methods used by [App] *)
(* ================================================================== *)

Module Text.
Import JS.

(** The ASCII white space and line terminators that [trim] strips: tab, line
    feed, vertical tab, form feed, carriage return and space.  On a string of
    ASCII characters ([JS.isAscii]) this is all that [trim] strips; the white
    space outside ASCII (such as the no-break space) is not modelled, and the
    statements about [trim] are for ASCII strings. *)
Definition isWhite (c : ascii) : bool :=
  let n := nat_of_ascii c in
  (((9 <=? n) && (n <=? 13)) || (n =? 32))%nat.

Fixpoint trimStart (s : string) : string :=
  match s with
  | String c rest => if isWhite c then trimStart rest else s
  | EmptyString => EmptyString
  end.

Fixpoint trimEnd (s : string) : string :=
  match s with
  | String c rest =>
      let rest' := trimEnd rest in
      if isWhite c && String.eqb rest' "" then "" else String c rest'
  | EmptyString => EmptyString
  end.

(** [s.trim()] *)
Definition trim (s : string) : string := trimEnd (trimStart s).

Definition startsWhite (s : string) : bool :=
  match s with
  | String c _ => isWhite c
  | EmptyString => false
  end.

Fixpoint endsWhite (s : string) : bool :=
  match s with
  | EmptyString => false
  | String c EmptyString => isWhite c
  | String _ rest => endsWhite rest
  end.

Fixpoint drop (n : nat) (s : string) : string :=
  match n, s with
  | O, _ => s
  | S n', String _ rest => drop n' rest
  | S _, EmptyString => EmptyString
  end.

(** The pattern matches at the start of [s], letters compared without
    regard to case (the [i] flag of a regular expression, for a pattern of
    ASCII letters and spaces). *)
Definition matchesAt (pattern s : string) : bool :=
  String.prefix (toLowerCase pattern) (toLowerCase s).

(** [s.replace(/pattern/i, '')] for a literal pattern: the first match, from
    the left, is removed; without a match the string is unchanged. *)
Fixpoint removeFirst (pattern s : string) : string :=
  if matchesAt pattern s then drop (String.length pattern) s
  else match s with
       | EmptyString => EmptyString
       | String c rest => String c (removeFirst pattern rest)
       end.

End Text.

(* ================================================================== *)
(** ** The remaining components and [App] *)
(* ================================================================== *)

Module Components.
Import JS View.

(** What React makes of a value placed in braces: nothing for [null],
    [undefined] and booleans, text for strings and numbers, the elements one
    after the other for an array.  A plain object is not a valid child and
    rendering throws ([None]). *)
Fixpoint renderChild (v : value) : option node :=
  match v with
  | VUndefined | VNull | VBool _ => Some NNull
  | VNum n => Some (NText (string_of_Z n))
  | VStr s => Some (NText s)
  | VArr items =>
      option_map NFragment
        ((fix all (l : list value) : option (list node) :=
            match l with
            | [] => Some []
            | x :: rest =>
                match renderChild x, all rest with
                | Some n, Some ns => Some (n :: ns)
                | _, _ => None
                end
            end) items)
  | VObj _ => None
  end.

(** [ErrorDisplay] *)
Definition ErrorDisplay (error : value) : option node :=
  if negb (truthy error) then Some NNull
  else
    match renderChild error with
    | Some message =>
        Some (NElem "div" [("className", "error"); ("role", "alert")]
                [ NElem "p" []
                    [ NElem "strong" [] [NText "Error:"];
                      NText " ";
                      message ] ])
    | None => None
    end.

(** One entry of [statItems] in [StatsDisplay]. *)
Record statItem : Type := {
  statName : string;
  statValue : value;
  statColor : string
}.

Definition statTile (stat : statItem) : option node :=
  match renderChild (statValue stat) with
  | Some shown =>
      Some (NElem "div" [("key", statName stat); ("className", "stat-item")]
              [ NElem "div" [("className", "stat-name")]
                  [NText (statName stat)];
                NElem "div" [("className", "stat-value");
                             ("style.color", statColor stat)]
                  [shown] ])
  | None => None
  end.

Fixpoint renderAll {A} (f : A -> option node) (l : list A)
  : option (list node) :=
  match l with
  | [] => Some []
  | x :: rest =>
      match f x, renderAll f rest with
      | Some n, Some ns => Some (n :: ns)
      | _, _ => None
      end
  end.

(** [stats.k] in the body of [StatsDisplay]; [None] when the read throws. *)
Definition statField (stats : value) (k : string) : option value :=
  match getProp stats k with
  | Return v => Some v
  | Throw _ => None
  end.

(** [StatsDisplay]; [None] when rendering throws. *)
Definition StatsDisplay (stats : value) : option node :=
  if negb (truthy stats) then Some NNull
  else
    match statField stats "speed", statField stats "stamina",
          statField stats "power", statField stats "guts",
          statField stats "wit" with
    | Some speed, Some stamina, Some power, Some guts, Some wit =>
        let statItems :=
          [ {| statName := "Speed"; statValue := speed; statColor := "#60a5fa" |};
            {| statName := "Stamina"; statValue := stamina; statColor := "#34d399" |};
            {| statName := "Power"; statValue := power; statColor := "#f87171" |};
            {| statName := "Guts"; statValue := guts; statColor := "#fbbf24" |};
            {| statName := "Wit"; statValue := wit; statColor := "#a78bfa" |} ] in
        match renderAll statTile statItems with
        | Some tiles =>
            Some (NElem "div" [("className", "stats-display")]
                    [ NElem "h3" [("className", "stats-title")]
                        [NText "Recommended Stats"];
                      NElem "div" [("className", "stats-grid")] tiles ])
        | None => None
        end
    | _, _, _, _, _ => None
    end.

(** The [TypeError] of calling a method that the value does not have. *)
Definition notAFunction (what : string) : value :=
  errorObject "TypeError" (what ++ " is not a function").

(** [App.getCharacterName], with [data] the hook's data: [null] without data
    or title, otherwise the title without its first "Hidden Events" (in
    whatever casing), trimmed.  A truthy title that is no string has no
    [replace] method. *)
Definition getCharacterName (data : value) : completion value :=
  if negb (truthy data) then Return VNull
  else
    match getProp data "title" with
    | Throw err => Throw err
    | Return title =>
        if negb (truthy title) then Return VNull
        else
          match title with
          | VStr t => Return (VStr (Text.trim (Text.removeFirst "Hidden Events" t)))
          | _ => Throw (notAFunction "data.title.replace")
          end
    end.

End Components.

(* ================================================================== *)
(** ** The [useInput] hook *)
(* ================================================================== *)

Module Input.
Import JS.

(** The two [useState] cells of the hook. *)
Record inputState : Type := {
  value : JS.value;
  error : JS.value
}.

Section UseInput.

(** The hook's arguments as the caller passes them.  The validator is a
    function or missing ([None], the parameter's default [null]); called on a
    value it returns its verdict or throws. *)
Variable initialValue : JS.value.
Variable validator : option (JS.value -> completion JS.value).

(** The parameter [initialValue = '']: the default stands in when the
    argument is [undefined]. *)
Definition startValue : JS.value :=
  match initialValue with
  | VUndefined => VStr ""
  | v => v
  end.

Definition initial : inputState :=
  {| value := startValue; error := VNull |}.

(** [handleChange(e)] with [e.target.value = newValue]: the value is set
    first; when the validator throws, the error is left as it was. *)
Definition handleChange (newValue : JS.value) (s : inputState)
  : inputState * completion unit :=
  match validator with
  | None => ({| value := newValue; error := error s |}, Return tt)
  | Some validate =>
      match validate newValue with
      | Return validationError =>
          ({| value := newValue; error := validationError |}, Return tt)
      | Throw err => ({| value := newValue; error := error s |}, Throw err)
      end
  end.

(** [reset] *)
Definition reset (s : inputState) : inputState :=
  {| value := startValue; error := VNull |}.

(** The [setValue] that the hook hands out as it is. *)
Definition setValue (v : JS.value) (s : inputState) : inputState :=
  {| value := v; error := error s |}.

(** What a component can do with the hook: type, reset, or set the value
    directly. *)
Inductive step : inputState -> inputState -> Prop :=
| step_change (v : JS.value) (s : inputState) :
    step s (fst (handleChange v s))
| step_reset (s : inputState) : step s (reset s)
| step_setValue (v : JS.value) (s : inputState) : step s (setValue v s).

Inductive reachable : inputState -> Prop :=
| reachable_initial : reachable initial
| reachable_step (s s' : inputState) :
    reachable s -> step s s' -> reachable s'.

(** The same without the direct [setValue]. *)
Inductive typed : inputState -> Prop :=
| typed_initial : typed initial
| typed_change (v : JS.value) (s : inputState) :
    typed s -> typed (fst (handleChange v s))
| typed_reset (s : inputState) : typed s -> typed (reset s).

End UseInput.

End Input.

(* ================================================================== *)
(** ** The earlier [App], before the hook and the components *)
(* ================================================================== *)

Module Legacy.
Import JS Api View.

(** [handleScrape] once [await fetchScrapedData(searchQuery)] has settled
    with [outcome]: [setLoading(true)], [setError(null)], then [setData] or
    [setError(err.message)], and [setLoading(false)] in the [finally] block.
    The state is the three cells [data], [loading], [error]. *)
Definition handleScrapeSettle (outcome : completion value)
    (s : Hook.apiState) : Hook.apiState * completion unit :=
  match outcome with
  | Return result =>
      ({| Hook.data := result; Hook.loading := false; Hook.error := VNull |},
       Return tt)
  | Throw err =>
      match getProp err "message" with
      | Return m =>
          ({| Hook.data := Hook.data s; Hook.loading := false;
              Hook.error := m |},
           Return tt)
      | Throw typeErr =>
          ({| Hook.data := Hook.data s; Hook.loading := false;
              Hook.error := VNull |},
           Throw typeErr)
      end
  end.

Definition handleScrape (VITE_API_URL : value) (searchQuery : string)
    (net : network) (s : Hook.apiState)
  : Hook.apiState * list request * completion unit :=
  let (sent, outcome) := fetchScrapedData VITE_API_URL [VStr searchQuery] net in
  let (s', r) := handleScrapeSettle outcome s in
  (s', sent, r).

End Legacy.

(* ================================================================== *)
(** ** Sample data *)
(* ================================================================== *)

(** Scenario B of the spec, and the same race in a second event. *)
Definition tokyoSprint : Core.RaceDescriptor :=
  {| Core.name := "Tokyo Sprint"; Core.racePeriod := Core.Early;
     Core.raceTier := Core.B; Core.raceDistance := Core.Short |}.

Definition derby : Core.RaceDescriptor :=
  {| Core.name := "Derby"; Core.racePeriod := Core.Mid;
     Core.raceTier := Core.S; Core.raceDistance := Core.Medium |}.

(** The race is named in the event's name only, in capitals. *)
Definition risingStar : Core.EventRecord :=
  {| Core.eventName := "Road to the TOKYO SPRINT";
     Core.eventConditions := "Win a race";
     Core.eventEffects := "+10 Speed" |}.

(** One race in the conditions, in lower case, and one in the effects. *)
Definition secondWind : Core.EventRecord :=
  {| Core.eventName := "Second Wind";
     Core.eventConditions := "After the derby";
     Core.eventEffects := "Enter Tokyo Sprint again" |}.

(** The two words of the race in two fields: the search text reads
    "After TokyoSprint to the finish", which does not name the race. *)
Definition splitName : Core.EventRecord :=
  {| Core.eventName := "After Tokyo";
     Core.eventConditions := "Sprint to the finish";
     Core.eventEffects := "" |}.

(** A race name that the end of one field and the start of the next spell
    together. *)
Definition acrossFields : Core.EventRecord :=
  {| Core.eventName := "Thunder";
     Core.eventConditions := "by night";
     Core.eventEffects := "" |}.

(** The backend's answers used in the examples. *)
Definition okResponse : JS.value :=
  JS.VObj [("status", JS.VNum 200);
           ("data", JS.VObj [("success", JS.VBool true);
                             ("data", JS.VObj [("title", JS.VStr "Agnes Tachyon")])])].

Definition failedResponse : JS.value :=
  JS.VObj [("status", JS.VNum 200);
           ("data", JS.VObj [("success", JS.VBool false);
                             ("error", JS.VStr "Character not found")])].

Definition timeoutError : JS.value :=
  JS.VObj [("code", JS.VStr "ECONNABORTED");
           ("message", JS.VStr "timeout of 30000ms exceeded");
           ("request", JS.VObj [])].

(** A backend that never answers in time. *)
Definition backendDown : Api.network := fun _ => JS.Throw timeoutError.

(** A wrapped function that fails without saying why:
    [async () => { throw new Error() }]. *)
Definition throwsBareError (args : list JS.value) : Api.Async JS.value :=
  Api.throw (JS.newError JS.VUndefined).

Definition backendUp : Api.network := fun _ => JS.Return okResponse.

(** The state after one successful search from the initial state. *)
Definition afterSuccess : Hook.apiState :=
  fst (Hook.handleSearch JS.VUndefined "Agnes Tachyon" backendUp
         Hook.initialState).

(** The hook while a second search is in flight after a first one succeeded. *)
Definition refetching : Hook.hook :=
  {| Hook.state := Hook.executeStart afterSuccess; Hook.pending := 1 |}.

(** The hook after that second search has rejected with [undefined]: no
    call is pending any more. *)
Definition stuck : Hook.hook :=
  {| Hook.state :=
       fst (Hook.executeSettle (JS.Throw JS.VUndefined)
              (Hook.state refetching));
     Hook.pending := 0 |}.

(** A validator that wants a name: empty input is an error. *)
Definition requireName (v : JS.value) : JS.completion JS.value :=
  if JS.truthy v then JS.Return JS.VNull
  else JS.Return (JS.VStr "Enter a character name").

(** The input after the name "Agnes" has been deleted again. *)
Definition emptiedInput : Input.inputState :=
  fst (Input.handleChange (Some requireName) (JS.VStr "")
         (Input.initial (JS.VStr "Agnes"))).

(** Recommended stats as in Scenario C of the spec: no Wit. *)
Definition statsWithoutWit : JS.value :=
  JS.VObj [("speed", JS.VNum 1100); ("stamina", JS.VNum 600);
           ("power", JS.VNum 800); ("guts", JS.VNum 400)].

(** A payload whose title carries the page's "Hidden Events" suffix. *)
Definition agnesPayload : JS.value :=
  JS.VObj [("title", JS.VStr "Agnes Tachyon hidden EVENTS");
           ("overall_rank", JS.VStr "s")].

(** An error answer without a body, as axios rejects with it. *)
Definition emptyBodyError : JS.value :=
  JS.VObj [("message", JS.VStr "Request failed with status code 502");
           ("request", JS.VObj []);
           ("response", JS.VObj [("status", JS.VNum 502);
                                 ("data", JS.VNull)])].

(* ================================================================== *)
(** * Properties *)
(* ================================================================== *)

(** ** Case conversion *)

Section CaseFacts.
Import JS Core.

Lemma toLowerCase_app (a b : string) :
  toLowerCase (a ++ b) = toLowerCase a ++ toLowerCase b.
Proof.
  unfold toLowerCase. induction a as [|c rest IH]; simpl;
    [reflexivity | now rewrite IH].
Qed.

Lemma toLowerCase_length (s : string) :
  String.length (toLowerCase s) = String.length s.
Proof.
  unfold toLowerCase. induction s as [|c rest IH]; simpl;
    [reflexivity | now rewrite IH].
Qed.





End CaseFacts.

(** ** The race matcher *)

Section Matcher.
Import Core.

Lemma alreadyIn_true (m : RaceMatch) (l : list RaceMatch) :
  alreadyIn m l = true <-> In m l.
Proof.
  unfold alreadyIn. destruct (in_dec RaceMatch_eq_dec m l); split;
    intros; congruence || assumption || reflexivity.
Qed.

Lemma alreadyIn_false (m : RaceMatch) (l : list RaceMatch) :
  alreadyIn m l = false <-> ~ In m l.
Proof.
  unfold alreadyIn. destruct (in_dec RaceMatch_eq_dec m l); split;
    intros; congruence || contradiction || assumption || reflexivity.
Qed.

Lemma differs_true (m x : RaceMatch) : differs m x = true <-> m <> x.
Proof.
  unfold differs. destruct (RaceMatch_eq_dec m x); split; intros;
    congruence || reflexivity.
Qed.

Lemma keepFirst_In (x : RaceMatch) (l : list RaceMatch) :
  In x (keepFirst l) <-> In x l.
Proof.
  induction l as [|m rest IH]; simpl; [tauto|].
  rewrite filter_In, IH, differs_true.
  destruct (RaceMatch_eq_dec m x) as [->|Hne]; tauto.
Qed.

Lemma keepFirst_NoDup (l : list RaceMatch) : NoDup (keepFirst l).
Proof.
  induction l as [|m rest IH]; simpl; constructor.
  - rewrite filter_In, differs_true. tauto.
  - now apply NoDup_filter.
Qed.

Lemma filter_filter_comm (p q : RaceMatch -> bool) (l : list RaceMatch) :
  filter p (filter q l) = filter q (filter p l).
Proof.
  induction l as [|x rest IH]; simpl; [reflexivity|].
  destruct (p x) eqn:Hp, (q x) eqn:Hq; simpl; rewrite ?Hp, ?Hq, IH; reflexivity.
Qed.

Lemma filter_differs_absorb (p : RaceMatch -> bool) (m : RaceMatch)
    (l : list RaceMatch) :
  p m = false -> filter p (filter (differs m) l) = filter p l.
Proof.
  intros Hm. induction l as [|x rest IH]; simpl; [reflexivity|].
  unfold differs at 1. destruct (RaceMatch_eq_dec m x) as [<-|Hne]; simpl.
  - rewrite Hm. exact IH.
  - rewrite IH. reflexivity.
Qed.

Lemma keepFirst_filter (p : RaceMatch -> bool) (l : list RaceMatch) :
  keepFirst (filter p l) = filter p (keepFirst l).
Proof.
  induction l as [|m rest IH]; simpl; [reflexivity|].
  destruct (p m) eqn:Hm; simpl.
  - rewrite IH. f_equal. apply filter_filter_comm.
  - rewrite IH. symmetry. now apply (filter_differs_absorb p m).
Qed.

Lemma fresh_snoc_pointwise (acc : list RaceMatch) (m x : RaceMatch) :
  fresh (acc ++ [m]) x = fresh acc x && differs m x.
Proof.
  unfold fresh, differs.
  destruct (alreadyIn x acc) eqn:Hacc; simpl.
  - assert (alreadyIn x (acc ++ [m]) = true) as ->; [|reflexivity].
    apply alreadyIn_true, in_or_app. left. now apply alreadyIn_true.
  - destruct (RaceMatch_eq_dec m x) as [<-|Hne].
    + assert (alreadyIn m (acc ++ [m]) = true) as ->; [|reflexivity].
      apply alreadyIn_true, in_or_app. right. now left.
    + assert (alreadyIn x (acc ++ [m]) = false) as ->; [|reflexivity].
      apply alreadyIn_false. intros H. apply in_app_or in H.
      apply alreadyIn_false in Hacc. destruct H as [H|[H|[]]]; auto.
Qed.

Lemma fresh_snoc (acc : list RaceMatch) (m : RaceMatch) (l : list RaceMatch) :
  filter (fresh (acc ++ [m])) l = filter (differs m) (filter (fresh acc) l).
Proof.
  induction l as [|x rest IH]; [reflexivity|].
  cbn [filter]. rewrite fresh_snoc_pointwise.
  destruct (fresh acc x); cbn [andb filter].
  - destruct (differs m x); now rewrite IH.
  - exact IH.
Qed.

(** Appending the new elements of [l] one by one leaves the accumulated
    result in front, followed by the first occurrences of what was not yet
    in it. *)
Lemma fold_appendNew (l acc : list RaceMatch) :
  fold_left appendNew l acc = (acc ++ keepFirst (filter (fresh acc) l))%list.
Proof.
  revert acc. induction l as [|m rest IH]; intros acc; simpl.
  - now rewrite app_nil_r.
  - unfold appendNew at 2. unfold fresh at 1.
    destruct (alreadyIn m acc) eqn:Hin; simpl.
    + apply IH.
    + rewrite IH, fresh_snoc, keepFirst_filter, <- app_assoc. reflexivity.
Qed.

Lemma fold_matchOne (e : EventRecord) (catalog : list RaceDescriptor)
    (acc : list RaceMatch) :
  fold_left (matchOne e) catalog acc
  = fold_left appendNew
      (map (fun r => {| matchRace := r; matchEventName := eventName e |})
           (filter (mentions e) catalog))
      acc.
Proof.
  revert acc. induction catalog as [|r rest IH]; intros acc; simpl.
  - reflexivity.
  - unfold matchOne at 2. destruct (mentions e r); simpl; apply IH.
Qed.

Lemma matchInto_hits (events : list EventRecord)
    (catalog : list RaceDescriptor) (acc : list RaceMatch) :
  matchInto acc events catalog = fold_left appendNew (hits events catalog) acc.
Proof.
  unfold matchInto, hits. revert acc.
  induction events as [|e rest IH]; intros acc; simpl.
  - reflexivity.
  - rewrite fold_left_app, <- fold_matchOne. apply IH.
Qed.

Lemma fresh_nil (l : list RaceMatch) : filter (fresh []) l = l.
Proof.
  induction l as [|x rest IH]; simpl; [reflexivity | now rewrite IH].
Qed.

Lemma fresh_none (acc l : list RaceMatch) :
  incl l acc -> filter (fresh acc) l = [].
Proof.
  induction l as [|x rest IH]; intros Hincl; [reflexivity|].
  cbn [filter]. unfold fresh at 1.
  assert (alreadyIn x acc = true) as ->.
  { apply alreadyIn_true, Hincl. now left. }
  apply IH. intros y Hy. apply Hincl. now right.
Qed.

Lemma matchRaces_keepFirst (events : list EventRecord)
    (catalog : list RaceDescriptor) :
  matchRaces events catalog = keepFirst (hits events catalog).
Proof.
  unfold matchRaces. rewrite matchInto_hits, fold_appendNew, fresh_nil.
  reflexivity.
Qed.





End Matcher.

Example matchRaces_scenario :
  Core.matchRaces
    [risingStar; secondWind; splitName; acrossFields; risingStar]
    [tokyoSprint; derby]
  = [ {| Core.matchRace := tokyoSprint;
         Core.matchEventName := "Road to the TOKYO SPRINT" |};
      {| Core.matchRace := tokyoSprint; Core.matchEventName := "Second Wind" |};
      {| Core.matchRace := derby; Core.matchEventName := "Second Wind" |};
      {| Core.matchRace := derby; Core.matchEventName := "Thunder" |} ].
Proof. vm_compute. reflexivity. Qed.

(** The fields are put end to end with nothing in between: two words of a
    name in two fields do not make the name, and the end of one field with the
    start of the next can. *)
Example mentions_field_borders :
  Core.mentions splitName tokyoSprint = false
  /\ Core.mentions acrossFields derby = true
  /\ Core.mentions acrossFields tokyoSprint = false.
Proof. vm_compute. auto. Qed.



(** C2.  Two calls of the matcher in a row, on the same events in the same
    process, give the same list: the catalog is left as it was, so the second
    call computes from the same inputs.  Neither result has a (race, event
    name) pair twice, and running the loops again on top of the first result
    adds nothing to it. *)
Theorem matchCall_twice_same
    (events : list Core.EventRecord) (p : Core.process) :
  let (first, p1) := Core.matchCall events p in
  let (second, p2) := Core.matchCall events p1 in
  first = second
  /\ p2 = p
  /\ NoDup first /\ NoDup second
  /\ Core.matchInto first events (Core.catalog p) = first.
Proof.
  unfold Core.matchCall.
  split; [reflexivity|]. split; [reflexivity|].
  split; [rewrite matchRaces_keepFirst; apply keepFirst_NoDup|].
  split; [rewrite matchRaces_keepFirst; apply keepFirst_NoDup|].
  rewrite matchInto_hits, fold_appendNew, fresh_none.
  - apply app_nil_r.
  - intros x Hx. rewrite matchRaces_keepFirst. now apply keepFirst_In.
Qed.

(** ** The API service *)

Section ApiFacts.
Import JS Api.

Lemma getProp_cases (v : value) (k : string) :
  (exists x, getProp v k = Return x)
  \/ getProp v k = Throw (typeError v k).
Proof. destruct v; simpl; eauto. Qed.

Lemma getProp_error_message (name message : string) :
  getProp (errorObject name message) "message" = Return (VStr message).
Proof. reflexivity. Qed.

Lemma newError_VStr (s : string) : newError (VStr s) = errorObject "Error" s.
Proof. reflexivity. Qed.

Lemma newError_is_error (arg : value) :
  exists message, newError arg = errorObject "Error" message.
Proof. unfold newError. eauto. Qed.

Lemma typeError_is_error (base : value) (k : string) :
  exists message, typeError base k = errorObject "TypeError" message.
Proof. unfold typeError. eauto. Qed.

(** Run on an error object made by [new Error], the [catch] block throws an
    error with the same message. *)
Lemma scrapeCatch_rethrows (arg : value) (net : network) :
  scrapeCatch (newError arg) net = ([], Throw (newError arg)).
Proof. reflexivity. Qed.

(** Whatever it catches, the [catch] block sends nothing and throws an error
    object. *)
Lemma scrapeCatch_throws (error : value) (net : network) :
  exists name message,
    scrapeCatch error net = ([], Throw (errorObject name message)).
Proof.
  unfold scrapeCatch, bind, prop, lift, throw.
  destruct (getProp_cases error "response") as [[response ->]| ->];
    [|destruct (typeError_is_error error "response") as [m ->]; eauto].
  destruct (truthy response).
  - destruct (getProp_cases response "data") as [[data ->]| ->];
      [|destruct (typeError_is_error response "data") as [m ->]; eauto].
    destruct (getProp_cases data "error") as [[msg ->]| ->];
      [|destruct (typeError_is_error data "error") as [m ->]; eauto].
    destruct (newError_is_error (jsOr msg (VStr "Server error"))) as [m ->].
    eauto.
  - destruct (getProp_cases error "request") as [[req ->]| ->];
      [|destruct (typeError_is_error error "request") as [m ->]; eauto].
    destruct (truthy req).
    + rewrite newError_VStr. eauto.
    + destruct (getProp_cases error "message") as [[msg ->]| ->];
        [|destruct (typeError_is_error error "message") as [m ->]; eauto].
      destruct (newError_is_error msg) as [m ->]. eauto.
Qed.

Lemma scrapeTry_sends_one (env : value) (net : network) :
  fst (scrapeTry env net) = [scrapeRequest env].
Proof.
  unfold scrapeTry, bind, prop, lift, get, throw.
  fold (scrapeRequest env).
  destruct (net (scrapeRequest env)) as [response|err]; [|reflexivity].
  destruct (getProp response "data") as [data|e1]; [|reflexivity].
  destruct (getProp data "success") as [success|e2]; [|reflexivity].
  destruct (truthy success).
  - destruct (getProp data "data"); reflexivity.
  - destruct (getProp data "error"); reflexivity.
Qed.

(** [fetchScrapedData] is its [try] block, with whatever that throws turned
    by the [catch] block into an error object. *)
Lemma fetchScrapedData_run (env : value) (args : list value) (net : network) :
  fetchScrapedData env args net
  = ([scrapeRequest env],
     match snd (scrapeTry env net) with
     | Return payload => Return payload
     | Throw err => snd (scrapeCatch err net)
     end).
Proof.
  unfold fetchScrapedData, tryCatch.
  pose proof (scrapeTry_sends_one env net) as Hsent.
  destruct (scrapeTry env net) as [sent [payload|err]]; simpl in *; subst sent.
  - reflexivity.
  - destruct (scrapeCatch_throws err net) as (n & m & ->). reflexivity.
Qed.

(** When the [try] block gets a response, the result depends on the
    [success] flag of its data alone. *)
Lemma scrapeTry_response (env : value) (net : network)
    (response data success : value) :
  net (scrapeRequest env) = Return response ->
  getProp response "data" = Return data ->
  getProp data "success" = Return success ->
  snd (scrapeTry env net)
  = if truthy success then getProp data "data"
    else match getProp data "error" with
         | Return error =>
             Throw (newError (jsOr error (VStr "Failed to fetch data")))
         | Throw err => Throw err
         end.
Proof.
  intros Hnet Hdata Hsuccess.
  unfold scrapeTry, bind, prop, lift, get, throw.
  fold (scrapeRequest env). rewrite Hnet, Hdata, Hsuccess.
  destruct (truthy success).
  - destruct (getProp data "data"); reflexivity.
  - destruct (getProp data "error"); reflexivity.
Qed.

Lemma scrapeTry_returns (env : value) (net : network) (payload : value) :
  snd (scrapeTry env net) = Return payload ->
  exists response data success,
    net (scrapeRequest env) = Return response
    /\ getProp response "data" = Return data
    /\ getProp data "success" = Return success
    /\ truthy success = true
    /\ getProp data "data" = Return payload.
Proof.
  unfold scrapeTry, bind, prop, lift, get, throw.
  fold (scrapeRequest env).
  destruct (net (scrapeRequest env)) as [response|err]; [|discriminate].
  destruct (getProp response "data") as [data|e1] eqn:Hdata; [|discriminate].
  destruct (getProp data "success") as [success|e2] eqn:Hs; [|discriminate].
  destruct (truthy success) eqn:Ht.
  - destruct (getProp data "data") as [p|e3] eqn:Hp; simpl; [|discriminate].
    intros [= <-]. exists response, data, success. auto.
  - destruct (getProp data "error"); discriminate.
Qed.

Lemma scrapeTry_rejected (env : value) (net : network) (err : value) :
  net (scrapeRequest env) = Throw err -> snd (scrapeTry env net) = Throw err.
Proof.
  intros Hnet. unfold scrapeTry, bind, get. fold (scrapeRequest env).
  now rewrite Hnet.
Qed.

Lemma fetchScrapedData_sends_one (env : value) (args : list value)
    (net : network) :
  fst (fetchScrapedData env args net) = [scrapeRequest env].
Proof. now rewrite fetchScrapedData_run. Qed.

End ApiFacts.

(** C4.  [fetchScrapedData] returns a payload exactly when the request was
    answered and the [success] flag of the answer's data is truthy, and the
    payload is then the [data] field of that data.  In every other case it
    throws an error object, which carries one message: for a falsy flag the
    backend's [error] text or "Failed to fetch data", for an error response the
    response's [error] text or "Server error", and for a request without a
    response a fixed sentence. *)
Theorem fetchScrapedData_payload_iff_success
    (env : JS.value) (args : list JS.value) (net : Api.network) :
  let out := snd (Api.fetchScrapedData env args net) in
  (forall payload,
      out = JS.Return payload
      <-> exists response data success,
            net (Api.scrapeRequest env) = JS.Return response
            /\ JS.getProp response "data" = JS.Return data
            /\ JS.getProp data "success" = JS.Return success
            /\ JS.truthy success = true
            /\ JS.getProp data "data" = JS.Return payload)
  /\ ((exists payload, out = JS.Return payload)
      \/ (exists name message, out = JS.Throw (JS.errorObject name message)))
  /\ (forall response data success error,
        net (Api.scrapeRequest env) = JS.Return response ->
        JS.getProp response "data" = JS.Return data ->
        JS.getProp data "success" = JS.Return success ->
        JS.truthy success = false ->
        JS.getProp data "error" = JS.Return error ->
        out = JS.Throw
                (JS.newError
                   (JS.jsOr error (JS.VStr "Failed to fetch data"))))
  /\ (forall err response data msg,
        net (Api.scrapeRequest env) = JS.Throw err ->
        JS.getProp err "response" = JS.Return response ->
        JS.truthy response = true ->
        JS.getProp response "data" = JS.Return data ->
        JS.getProp data "error" = JS.Return msg ->
        out = JS.Throw
                (JS.newError (JS.jsOr msg (JS.VStr "Server error"))))
  /\ (forall err response req,
        net (Api.scrapeRequest env) = JS.Throw err ->
        JS.getProp err "response" = JS.Return response ->
        JS.truthy response = false ->
        JS.getProp err "request" = JS.Return req ->
        JS.truthy req = true ->
        out = JS.Throw
                (JS.newError
                   (JS.VStr
                      "No response from server. Is the backend running?"))).
Proof.
  intros out. subst out. rewrite fetchScrapedData_run. cbn [snd].
  repeat split.
  - intros H.
    destruct (snd (Api.scrapeTry env net)) as [p|err] eqn:Htry.
    + injection H as <-. now apply scrapeTry_returns.
    + destruct (scrapeCatch_throws err net) as (n & m & Hc).
      rewrite Hc in H. discriminate.
  - intros (response & data & success & Hnet & Hd & Hs & Ht & Hp).
    rewrite (scrapeTry_response env net response data success Hnet Hd Hs), Ht, Hp.
    reflexivity.
  - destruct (snd (Api.scrapeTry env net)) as [p|err]; [left; eauto|].
    right. destruct (scrapeCatch_throws err net) as (n & m & ->).
    exists n, m. reflexivity.
  - intros response data success error Hnet Hd Hs Ht He.
    rewrite (scrapeTry_response env net response data success Hnet Hd Hs), Ht, He.
    now rewrite scrapeCatch_rethrows.
  - intros err response data msg Hnet Hr Ht Hd Hm.
    rewrite (scrapeTry_rejected env net err Hnet).
    unfold Api.scrapeCatch, Api.bind, Api.prop, Api.lift, Api.throw.
    now rewrite Hr, Ht, Hd, Hm.
  - intros err response req Hnet Hr Ht Hq Htq.
    rewrite (scrapeTry_rejected env net err Hnet).
    unfold Api.scrapeCatch, Api.bind, Api.prop, Api.lift, Api.throw.
    now rewrite Hr, Ht, Hq, Htq.
Qed.

Example fetchScrapedData_ok :
  Api.fetchScrapedData JS.VUndefined [] (fun _ => JS.Return okResponse)
  = ([Api.scrapeRequest JS.VUndefined],
     JS.Return (JS.VObj [("title", JS.VStr "Agnes Tachyon")])).
Proof. reflexivity. Qed.

Example fetchScrapedData_failed :
  snd (Api.fetchScrapedData JS.VUndefined [] (fun _ => JS.Return failedResponse))
  = JS.Throw (JS.errorObject "Error" "Character not found").
Proof. reflexivity. Qed.

Example fetchScrapedData_timeout :
  snd (Api.fetchScrapedData JS.VUndefined [] (fun _ => JS.Throw timeoutError))
  = JS.Throw (JS.errorObject "Error"
                "No response from server. Is the backend running?").
Proof. reflexivity. Qed.

(** C3, what the code does.  Whatever identifier the caller passes, the one
    request that [fetchScrapedData] sends is GET /scrape on the configured
    client, without parameters: two different identifiers give the same
    request and the same outcome, also when they come from the search box of
    [App]. *)
Theorem fetchScrapedData_ignores_identifier
    (env : JS.value) (identifier other : string) (net : Api.network)
    (s : Hook.apiState) :
  fst (Api.fetchScrapedData env [JS.VStr identifier] net)
  = [ {| Api.config := Api.defaults (Api.api env); Api.method := "get";
         Api.url := "/scrape"; Api.params := [] |} ]
  /\ Api.fetchScrapedData env [JS.VStr identifier] net
     = Api.fetchScrapedData env [JS.VStr other] net
  /\ snd (Hook.handleSearch env identifier net s)
     = [ {| Api.config := Api.defaults (Api.api env); Api.method := "get";
            Api.url := "/scrape"; Api.params := [] |} ]
  /\ Hook.handleSearch env identifier net s
     = Hook.handleSearch env other net s.
Proof.
  split; [apply fetchScrapedData_sends_one|].
  split; [reflexivity|]. split; [|reflexivity].
  unfold Hook.handleSearch, Hook.execute.
  rewrite fetchScrapedData_run.
  destruct (Hook.executeSettle _ _). reflexivity.
Qed.

(** C8.  Every function of the service sends exactly one request per call,
    through the one client made by [axios.create], whose timeout is 30000 ms:
    a positive value, after which axios aborts the request. *)
Theorem every_request_has_timeout
    (env : JS.value) (args : list JS.value) (net : Api.network) :
  Api.timeout (Api.defaults (Api.api env)) = 30000%Z
  /\ Api.abortsAfter (Api.defaults (Api.api env)) = Some 30000%Z
  /\ (exists r, fst (Api.fetchScrapedData env args net) = [r]
                /\ Api.config r = Api.defaults (Api.api env))
  /\ (exists r, fst (Api.checkHealth env args net) = [r]
                /\ Api.config r = Api.defaults (Api.api env)).
Proof.
  split; [reflexivity|]. split; [reflexivity|]. split.
  - exists (Api.scrapeRequest env). split; [|reflexivity].
    apply fetchScrapedData_sends_one.
  - exists {| Api.config := Api.defaults (Api.api env); Api.method := "get";
              Api.url := "/health"; Api.params := [] |}.
    split; [|reflexivity].
    unfold Api.checkHealth, Api.tryCatch, Api.bind, Api.get, Api.prop,
      Api.lift, Api.throw.
    destruct (net _) as [response|err]; [|reflexivity].
    destruct (JS.getProp response "data"); reflexivity.
Qed.

(** ** The [useApiCall] hook *)

Section HookFacts.
Import JS Api Hook.

Lemma getProp_nullish (v : value) (k : string) :
  isNullish v = true -> getProp v k = Throw (typeError v k).
Proof. destruct v; simpl; intros H; reflexivity || discriminate. Qed.

Lemma getProp_not_nullish (v : value) (k : string) :
  isNullish v = false -> exists x, getProp v k = Return x.
Proof. destruct v; simpl; intros H; eauto; discriminate. Qed.

Lemma jsOr_default_truthy (m : value) (s : string) :
  s <> "" -> truthy (jsOr m (VStr s)) = true.
Proof.
  intros Hs. unfold jsOr. destruct (truthy m) eqn:Hm; [exact Hm|].
  simpl. destruct (String.eqb_spec s ""); [contradiction | reflexivity].
Qed.

Lemma truthy_not_null (v : value) : truthy v = true -> v <> VNull.
Proof. intros H ->. discriminate. Qed.

Lemma execute_state (apiFunction : list value -> Async value)
    (args : list value) (net : network) (s : apiState) :
  fst (fst (execute apiFunction args net s))
  = fst (executeSettle (snd (apiFunction args net)) (executeStart s)).
Proof.
  unfold execute. destruct (apiFunction args net) as [sent outcome].
  cbn [snd]. destruct (executeSettle outcome (executeStart s)). reflexivity.
Qed.

Lemma execute_completion (apiFunction : list value -> Async value)
    (args : list value) (net : network) (s : apiState) :
  snd (execute apiFunction args net s)
  = snd (executeSettle (snd (apiFunction args net)) (executeStart s)).
Proof.
  unfold execute. destruct (apiFunction args net) as [sent outcome].
  cbn [snd]. destruct (executeSettle outcome (executeStart s)). reflexivity.
Qed.

(** The state that a settled call leaves, by the kind of outcome. *)
Lemma executeSettle_failure (err m : value) (s : apiState) :
  getProp err "message" = Return m ->
  executeSettle (Throw err) s
  = ({| data := VNull; loading := false;
        error := jsOr m (VStr "An unexpected error occurred") |},
     Throw err).
Proof. intros H. unfold executeSettle. now rewrite H. Qed.

Lemma executeSettle_nullish (err : value) (s : apiState) :
  isNullish err = true ->
  executeSettle (Throw err) s = (s, Throw (typeError err "message")).
Proof.
  intros H. unfold executeSettle. now rewrite (getProp_nullish err "message" H).
Qed.

Lemma executeSettle_invariant (outcome : completion value) (s : apiState) :
  stateInvariant s -> stateInvariant (fst (executeSettle outcome s)).
Proof.
  intros Hs. destruct outcome as [result|err].
  - simpl. split; [now right | reflexivity].
  - unfold executeSettle.
    destruct (getProp err "message") as [m|te]; simpl.
    + split; [now left | reflexivity].
    + exact Hs.
Qed.

Lemma step_invariant (h h' : hook) :
  step h h' -> stateInvariant (state h) -> stateInvariant (state h').
Proof.
  intros Hstep Hinv. destruct Hstep as [h|h n outcome Hp|h]; simpl.
  - split; [now right | intros H; now elim H].
  - now apply executeSettle_invariant.
  - split; [now right | reflexivity].
Qed.

(** What [fetchScrapedData] throws is never [null] or [undefined], so for
    the search of [App] a failure always ends in the error state. *)
Lemma handleSearch_failure_state (env : value) (searchQuery : string)
    (net : network) (s : apiState) (err : value) :
  snd (fetchScrapedData env [VStr searchQuery] net) = Throw err ->
  exists message,
    err <> VNull /\ err <> VUndefined
    /\ getProp err "message" = Return (VStr message)
    /\ fst (handleSearch env searchQuery net s)
       = {| data := VNull; loading := false;
            error := jsOr (VStr message)
                       (VStr "An unexpected error occurred") |}.
Proof.
  intros Hthrow. unfold handleSearch.
  pose proof (execute_state (fetchScrapedData env) [VStr searchQuery] net s)
    as Hstate.
  destruct (execute (fetchScrapedData env) [VStr searchQuery] net s)
    as [[s' sent] r].
  cbn [fst] in *. subst s'. rewrite Hthrow.
  rewrite fetchScrapedData_run in Hthrow. cbn [snd] in Hthrow.
  destruct (snd (scrapeTry env net)) as [payload|caught]; [discriminate|].
  destruct (scrapeCatch_throws caught net) as (n & m & Hc).
  rewrite Hc in Hthrow. injection Hthrow as <-.
  exists m. repeat split; try discriminate.
Qed.

End HookFacts.

Example afterSuccess_value :
  afterSuccess
  = {| Hook.data := JS.VObj [("title", JS.VStr "Agnes Tachyon")];
       Hook.loading := false; Hook.error := JS.VNull |}.
Proof. reflexivity. Qed.

(** C5 as stated fails when the failure has an empty message: the [catch]
    block of [execute] then stores "An unexpected error occurred", not the
    failure's message. *)
Lemma execute_failure_fallback_message :
  snd (throwsBareError [] backendUp) = JS.Throw (JS.errorObject "Error" "")
  /\ JS.getProp (JS.errorObject "Error" "") "message" = JS.Return (JS.VStr "")
  /\ fst (fst (Hook.execute throwsBareError [] backendUp afterSuccess))
     = {| Hook.data := JS.VNull; Hook.loading := false;
          Hook.error := JS.VStr "An unexpected error occurred" |}
  /\ Hook.error
       (fst (fst (Hook.execute throwsBareError [] backendUp afterSuccess)))
     <> JS.VStr "".
Proof.
  split; [reflexivity|]. split; [reflexivity|]. split; [reflexivity|].
  discriminate.
Qed.

(** C5, amended.  When the wrapped function throws a value whose [message]
    can be read (any value but [null] and [undefined]), [execute] leaves the
    state with [data] null, [loading] false and [error] set to that message,
    or to "An unexpected error occurred" when the message is falsy; the error
    is never null, and [execute] rethrows the value it caught. *)
Theorem execute_failure_state
    (apiFunction : list JS.value -> Api.Async JS.value)
    (args : list JS.value) (net : Api.network) (s : Hook.apiState)
    (err : JS.value) :
  snd (apiFunction args net) = JS.Throw err ->
  JS.isNullish err = false ->
  exists m,
    JS.getProp err "message" = JS.Return m
    /\ fst (fst (Hook.execute apiFunction args net s))
       = {| Hook.data := JS.VNull; Hook.loading := false;
            Hook.error :=
              JS.jsOr m (JS.VStr "An unexpected error occurred") |}
    /\ Hook.error (fst (fst (Hook.execute apiFunction args net s)))
       <> JS.VNull
    /\ snd (Hook.execute apiFunction args net s) = JS.Throw err.
Proof.
  intros Hthrow Hnn.
  destruct (getProp_not_nullish err "message" Hnn) as [m Hm].
  exists m. rewrite execute_state, execute_completion, Hthrow.
  rewrite (executeSettle_failure err m _ Hm). cbn [fst snd Hook.error].
  repeat split; try assumption.
  apply truthy_not_null, jsOr_default_truthy. discriminate.
Qed.

Lemma execute_failure_state_witness :
  exists m,
    JS.getProp
      (JS.errorObject "Error" "No response from server. Is the backend running?")
      "message" = JS.Return m
    /\ fst (fst (Hook.execute (Api.fetchScrapedData JS.VUndefined)
                   [JS.VStr "Agnes Tachyon"] backendDown afterSuccess))
       = {| Hook.data := JS.VNull; Hook.loading := false;
            Hook.error :=
              JS.jsOr m (JS.VStr "An unexpected error occurred") |}
    /\ Hook.error
         (fst (fst (Hook.execute (Api.fetchScrapedData JS.VUndefined)
                      [JS.VStr "Agnes Tachyon"] backendDown afterSuccess)))
       <> JS.VNull
    /\ snd (Hook.execute (Api.fetchScrapedData JS.VUndefined)
              [JS.VStr "Agnes Tachyon"] backendDown afterSuccess)
       = JS.Throw
           (JS.errorObject "Error"
              "No response from server. Is the backend running?").
Proof.
  apply (execute_failure_state (Api.fetchScrapedData JS.VUndefined)
           [JS.VStr "Agnes Tachyon"] backendDown afterSuccess
           (JS.errorObject "Error"
              "No response from server. Is the backend running?")).
  - reflexivity.
  - reflexivity.
Defined.

Lemma refetching_reachable : Hook.reachable refetching.
Proof.
  apply (Hook.reachable_step
           {| Hook.state := afterSuccess; Hook.pending := 0 |});
    [|exact (Hook.step_start {| Hook.state := afterSuccess; Hook.pending := 0 |})].
  apply (Hook.reachable_step
           {| Hook.state := Hook.executeStart Hook.initialState;
              Hook.pending := 1 |}).
  - apply (Hook.reachable_step Hook.mounted);
      [exact Hook.reachable_mounted | exact (Hook.step_start Hook.mounted)].
  - exact (Hook.step_settle
             {| Hook.state := Hook.executeStart Hook.initialState;
                Hook.pending := 1 |}
             0 (JS.Return (JS.VObj [("title", JS.VStr "Agnes Tachyon")]))
             eq_refl).
Qed.

(** C9 as stated fails while a call is in flight after an earlier success:
    [execute] starts by setting [loading] and keeps the previous [data].  The
    same state is the one left for good when that call then rejects with
    [undefined]. *)
Lemma reachable_loading_with_data :
  Hook.reachable refetching
  /\ Hook.data (Hook.state refetching)
     = JS.VObj [("title", JS.VStr "Agnes Tachyon")]
  /\ Hook.loading (Hook.state refetching) = true
  /\ ~ (Hook.data (Hook.state refetching) <> JS.VNull
        \/ Hook.error (Hook.state refetching) <> JS.VNull
        -> Hook.loading (Hook.state refetching) = false)
  /\ Hook.reachable stuck
  /\ Hook.state stuck = Hook.state refetching.
Proof.
  split; [exact refetching_reachable|].
  split; [reflexivity|]. split; [reflexivity|]. split.
  - intros H. assert (Hf : true = false) by (apply H; left; discriminate).
    discriminate Hf.
  - split; [|reflexivity].
    apply (Hook.reachable_step refetching); [exact refetching_reachable|].
    exact (Hook.step_settle refetching 0 (JS.Throw JS.VUndefined) eq_refl).
Qed.

(** C9, amended.  In every state the hook can reach, calls in flight and
    overlapping calls included, [data] and [error] are never both non-null and
    [loading] is false whenever [error] is non-null.  [loading] is false as
    well in the state left by a call that returned, by a call that threw a
    value other than [null] and [undefined], and by [reset]. *)
Theorem reachable_state_invariant (h : Hook.hook) :
  Hook.reachable h ->
  (Hook.data (Hook.state h) = JS.VNull \/ Hook.error (Hook.state h) = JS.VNull)
  /\ (Hook.error (Hook.state h) <> JS.VNull ->
      Hook.loading (Hook.state h) = false)
  /\ (forall result,
        Hook.loading
          (fst (Hook.executeSettle (JS.Return result) (Hook.state h))) = false)
  /\ (forall err,
        JS.isNullish err = false ->
        Hook.loading
          (fst (Hook.executeSettle (JS.Throw err) (Hook.state h))) = false)
  /\ Hook.loading (Hook.reset (Hook.state h)) = false.
Proof.
  intros Hreach.
  assert (Hinv : Hook.stateInvariant (Hook.state h)).
  { induction Hreach as [|h h' _ IH Hstep].
    - split; [now left | reflexivity].
    - exact (step_invariant h h' Hstep IH). }
  destruct Hinv as [Hboth Hload].
  split; [exact Hboth|]. split; [exact Hload|].
  split; [reflexivity|]. split; [|reflexivity].
  intros err Hnn. destruct (getProp_not_nullish err "message" Hnn) as [m Hm].
  now rewrite (executeSettle_failure err m _ Hm).
Qed.

Lemma reachable_state_invariant_witness :
  (Hook.data (Hook.state refetching) = JS.VNull
   \/ Hook.error (Hook.state refetching) = JS.VNull)
  /\ (Hook.error (Hook.state refetching) <> JS.VNull ->
      Hook.loading (Hook.state refetching) = false)
  /\ (forall result,
        Hook.loading
          (fst (Hook.executeSettle (JS.Return result)
                  (Hook.state refetching))) = false)
  /\ (forall err,
        JS.isNullish err = false ->
        Hook.loading
          (fst (Hook.executeSettle (JS.Throw err)
                  (Hook.state refetching))) = false)
  /\ Hook.loading (Hook.reset (Hook.state refetching)) = false.
Proof.
  apply (reachable_state_invariant refetching).
  exact refetching_reachable.
Defined.

(** ** The display components *)

Section ViewFacts.
Import JS View.

Lemma flat_ofNested (input : nested) :
  flat (ofNested input) = map IEvent (flattenOnce input).
Proof.
  unfold flat, ofNested, flattenOnce.
  induction input as [|[e|es] rest IH]; simpl.
  - reflexivity.
  - now rewrite IH.
  - now rewrite IH, map_app.
Qed.

Lemma mapIndexFrom_map {X Y Z : Type} (g : X -> Y) (f : Y -> nat -> Z)
    (l : list X) (k : nat) :
  mapIndexFrom k f (map g l) = mapIndexFrom k (fun x i => f (g x) i) l.
Proof.
  revert k. induction l as [|x rest IH]; intros k; simpl;
    [reflexivity | now rewrite IH].
Qed.

Lemma mapIndexFrom_length {X Y : Type} (f : X -> nat -> Y) (l : list X)
    (k : nat) :
  List.length (mapIndexFrom k f l) = List.length l.
Proof.
  revert k. induction l as [|x rest IH]; intros k; simpl;
    [reflexivity | now rewrite IH].
Qed.

(** Inside the rendering of one event, the only element of class
    [event-section] is the section itself. *)
Lemma byClass_eventSection (ev : item) (index : nat) :
  byClass "event-section" (eventSection ev index) = [eventSection ev index].
Proof. destruct ev; reflexivity. Qed.

Lemma byClass_sections (l : list item) (k : nat) :
  filter (hasClass "event-section")
    (flat_map elements (mapIndexFrom k eventSection l))
  = mapIndexFrom k eventSection l.
Proof.
  revert k. induction l as [|ev rest IH]; intros k; [reflexivity|].
  cbn [mapIndexFrom flat_map]. rewrite filter_app, IH.
  change (filter (hasClass "event-section") (elements (eventSection ev k)))
    with (byClass "event-section" (eventSection ev k)).
  now rewrite byClass_eventSection.
Qed.

Lemma EventList_sections (items : list item) (title : option string) :
  byClass "event-section" (EventList (Some items) title)
  = mapIndex eventSection (flat items).
Proof.
  destruct items as [|x rest]; [reflexivity|].
  unfold EventList, byClass, mapIndex.
  cbn [elements flat_map]. rewrite filter_app, byClass_sections.
  destruct title as [[|c t]|]; reflexivity.
Qed.

Lemma byClass_rank_value (rank : string) (characterName : option string) :
  rank <> "" ->
  byClass "rank-value" (RankDisplay (Some rank) characterName)
  = [NElem "div" [("className", "rank-value")] [NText (toUpperCase rank)]].
Proof.
  intros Hne. destruct rank as [|c rest]; [contradiction|].
  destruct characterName as [[|d name]|]; reflexivity.
Qed.

End ViewFacts.

Section ParserFacts.
Import JS Core.

Lemma tierToken_upper (token : string) :
  In token tierTokens -> toUpperCase token = token /\ token <> "".
Proof.
  unfold tierTokens. simpl. intros H.
  repeat (destruct H as [<-|H]; [split; [reflexivity | discriminate]|]).
  contradiction.
Qed.

Lemma existsb_tierTokens (token : string) :
  existsb (String.eqb token) tierTokens = true <-> In token tierTokens.
Proof.
  rewrite existsb_exists. split.
  - intros (x & Hx & Heq). apply String.eqb_eq in Heq. now subst.
  - intros H. exists token. split; [assumption | apply String.eqb_refl].
Qed.

Lemma extractRank_token (indicator : option string) (rank : string) :
  extractRank indicator = Some rank ->
  In rank tierTokens
  /\ exists text, indicator = Some text /\ rank = toUpperCase text.
Proof.
  destruct indicator as [text|]; [|discriminate]. unfold extractRank.
  destruct (existsb _ tierTokens) eqn:Hex; [|discriminate].
  intros [= <-]. split; [now apply existsb_tierTokens | eauto].
Qed.

End ParserFacts.

(** C6.  When the tier indicator of the page is a tier token in whatever
    casing, the extracted rank is that token in upper case, one of the nine
    fixed tokens, and [RankDisplay] shows it unchanged.  Whatever non-empty
    rank string [RankDisplay] is given, the value it shows is the upper-cased
    form of that string; and every rank the extraction yields is a tier token
    that upper-casing leaves as it is. *)
Theorem rank_is_upper_case_tier_token
    (text : string) (characterName : option string) :
  In (JS.toUpperCase text) Core.tierTokens ->
  Core.extractRank (Some text) = Some (JS.toUpperCase text)
  /\ View.byClass "rank-value"
       (View.RankDisplay (Core.extractRank (Some text)) characterName)
     = [View.NElem "div" [("className", "rank-value")]
          [View.NText (JS.toUpperCase text)]]
  /\ (forall rank,
        rank <> "" ->
        View.byClass "rank-value"
          (View.RankDisplay (Some rank) characterName)
        = [View.NElem "div" [("className", "rank-value")]
             [View.NText (JS.toUpperCase rank)]])
  /\ (forall indicator rank,
        Core.extractRank indicator = Some rank ->
        In rank Core.tierTokens /\ JS.toUpperCase rank = rank).
Proof.
  intros Hvalid.
  assert (Hrank : Core.extractRank (Some text) = Some (JS.toUpperCase text)).
  { unfold Core.extractRank.
    now rewrite (proj2 (existsb_tierTokens (JS.toUpperCase text)) Hvalid). }
  destruct (tierToken_upper _ Hvalid) as [Hup Hne].
  split; [exact Hrank|]. split; [|split].
  - rewrite Hrank, (byClass_rank_value _ characterName Hne), Hup. reflexivity.
  - intros rank Hrne. now apply byClass_rank_value.
  - intros indicator rank H. destruct (extractRank_token indicator rank H) as [Hin _].
    split; [exact Hin | now apply tierToken_upper].
Qed.

Lemma rank_is_upper_case_tier_token_witness :
  Core.extractRank (Some "ss") = Some "SS"
  /\ View.byClass "rank-value"
       (View.RankDisplay (Core.extractRank (Some "ss")) (Some "Agnes Tachyon"))
     = [View.NElem "div" [("className", "rank-value")] [View.NText "SS"]].
Proof.
  destruct (rank_is_upper_case_tier_token "ss" (Some "Agnes Tachyon"))
    as (H1 & H2 & _).
  - vm_compute. auto 10.
  - split; [exact H1 | exact H2].
Defined.

(** C7.  A page without training-event blocks gives no events and no
    matches, whatever the catalog.  [EventList] renders the paragraph "No
    events found" for an empty and for a missing list of events, and
    [RaceList] renders nothing for an empty and for a missing list of
    matches; both return a node, neither throws. *)
Theorem no_events_renders_empty_state
    (catalog : list Core.RaceDescriptor) (title : option string)
    (toCard : Core.RaceMatch -> View.raceCard) :
  Core.eventsAndMatches [] catalog = ([], [])
  /\ View.EventList
       (Some (Core.toItems (fst (Core.eventsAndMatches [] catalog)))) title
     = View.NElem "p" [] [View.NText "No events found"]
  /\ View.EventList (Some []) title
     = View.NElem "p" [] [View.NText "No events found"]
  /\ View.EventList None title
     = View.NElem "p" [] [View.NText "No events found"]
  /\ View.RaceList
       (Some (map toCard (snd (Core.eventsAndMatches [] catalog))))
     = View.NNull
  /\ View.RaceList (Some []) = View.NNull
  /\ View.RaceList None = View.NNull.
Proof. repeat split. Qed.

(** C10.  For an [events] array whose elements are event objects or arrays
    of event objects, the sections that [EventList] renders are those of the
    one-level flattening of the array: one per event, in the order of the
    flattening, each keyed by its position and showing that event's name,
    conditions and effects. *)
Theorem EventList_renders_flattening
    (input : View.nested) (title : option string) :
  View.byClass "event-section"
    (View.EventList (Some (View.ofNested input)) title)
  = View.mapIndex (fun e index => View.eventSection (View.IEvent e) index)
      (View.flattenOnce input)
  /\ List.length
       (View.byClass "event-section"
          (View.EventList (Some (View.ofNested input)) title))
     = List.length (View.flattenOnce input).
Proof.
  assert (H : View.byClass "event-section"
                (View.EventList (Some (View.ofNested input)) title)
              = View.mapIndex
                  (fun e index => View.eventSection (View.IEvent e) index)
                  (View.flattenOnce input)).
  { destruct input as [|x rest]; [reflexivity|].
    unfold View.EventList.
    destruct (View.ofNested (x :: rest)) as [|i items] eqn:Hitems;
      [discriminate|].
    rewrite <- Hitems, flat_ofNested. unfold View.mapIndex.
    rewrite mapIndexFrom_map.
    unfold View.byClass. cbn [View.elements flat_map].
    rewrite filter_app.
    rewrite <- (mapIndexFrom_map View.IEvent View.eventSection).
    rewrite byClass_sections.
    destruct title as [[|c t]|]; reflexivity. }
  split; [exact H|].
  rewrite H. apply mapIndexFrom_length.
Qed.

Example EventList_nested :
  View.byClass "event-title"
    (View.EventList
       (Some (View.ofNested
                [ inr [ {| View.event_name := "Rising Star";
                           View.conditions := "Win a race";
                           View.effects := "+10 Speed" |};
                        {| View.event_name := "Second Wind";
                           View.conditions := "";
                           View.effects := "+5 Guts" |} ];
                  inr [];
                  inl {| View.event_name := "Finale";
                         View.conditions := "Senior year";
                         View.effects := "" |} ]))
       (Some "Agnes Tachyon"))
  = [ View.NElem "h3" [("className", "event-title")] [View.NText "Rising Star"];
      View.NElem "h3" [("className", "event-title")] [View.NText "Second Wind"];
      View.NElem "h3" [("className", "event-title")] [View.NText "Finale"] ].
Proof. reflexivity. Qed.

(* ================================================================== *)
(** * Further properties of the front end *)
(* ================================================================== *)

(** ** The API service *)

Section ServiceFacts.
Import JS Api.

(** What the [try] block throws after an answer arrived is an error
    object. *)
Lemma scrapeTry_answered_throws (env : value) (net : network)
    (response err : value) :
  net (scrapeRequest env) = Return response ->
  snd (scrapeTry env net) = Throw err ->
  exists n m, err = errorObject n m.
Proof.
  intros Hnet. unfold scrapeTry, bind, prop, lift, get, throw.
  fold (scrapeRequest env). rewrite Hnet.
  destruct (getProp_cases response "data") as [[data ->]| ->];
    [|intros [= <-]; unfold typeError; eauto].
  destruct (getProp_cases data "success") as [[success ->]| ->];
    [|intros [= <-]; unfold typeError; eauto].
  destruct (truthy success).
  - destruct (getProp_cases data "data") as [[payload ->]| ->];
      [discriminate | intros [= <-]; unfold typeError; eauto].
  - destruct (getProp_cases data "error") as [[error ->]| ->];
      intros [= <-]; unfold newError, typeError; eauto.
Qed.

(** Caught again, an error object leaves as an [Error] with its message. *)
Lemma scrapeCatch_error_object (n m : string) (net : network) :
  scrapeCatch (errorObject n m) net = ([], Throw (errorObject "Error" m)).
Proof. reflexivity. Qed.

End ServiceFacts.

(** X1.  [checkHealth] sends the one request GET /health.  It returns the
    [data] of the response when one arrives, and in every other case (no
    answer, an error answer, a response without readable [data]) it throws the
    same error, "Backend is not responding", whatever the cause was. *)
Theorem checkHealth_hides_the_cause
    (env : JS.value) (args : list JS.value) (net : Api.network) :
  let req := {| Api.config := Api.defaults (Api.api env);
                Api.method := "get"; Api.url := "/health";
                Api.params := [] |} in
  fst (Api.checkHealth env args net) = [req]
  /\ (forall status,
        snd (Api.checkHealth env args net) = JS.Return status
        <-> exists response,
              net req = JS.Return response
              /\ JS.getProp response "data" = JS.Return status)
  /\ ((exists status, snd (Api.checkHealth env args net) = JS.Return status)
      \/ snd (Api.checkHealth env args net)
         = JS.Throw (JS.errorObject "Error" "Backend is not responding")).
Proof.
  intros req.
  unfold Api.checkHealth, Api.tryCatch, Api.bind, Api.get, Api.prop,
    Api.lift, Api.throw.
  fold req.
  destruct (net req) as [response|err]; cbn [fst snd].
  - destruct (JS.getProp response "data") as [status|te] eqn:Hd; cbn [fst snd].
    + split; [reflexivity|]. split; [|left; eauto].
      intros v. split.
      * intros [= <-]. eauto.
      * intros (r & [= <-] & H). congruence.
    + split; [reflexivity|]. split; [|right; reflexivity].
      intros v. split; [discriminate|].
      intros (r & [= <-] & H). congruence.
  - split; [reflexivity|]. split; [|right; reflexivity].
    intros v. split; [discriminate|]. intros (r & H & _). discriminate.
Qed.

(** X2.  When the error texts of a rejection are strings, numbers,
    booleans, null or missing (no objects, no arrays), the error that
    [fetchScrapedData] throws is a [TypeError], raised inside its own [catch]
    block, in exactly two cases: the request was rejected with [null] or
    [undefined], or it was rejected with an error whose response has no data
    ([null] or [undefined]).  In every other failure it is an [Error]. *)
Theorem fetchScrapedData_TypeError_cases
    (env : JS.value) (args : list JS.value) (net : Api.network) :
  (forall err,
      net (Api.scrapeRequest env) = JS.Throw err ->
      forallb JS.isPrimitive (Api.errorTexts err) = true) ->
  (exists m, snd (Api.fetchScrapedData env args net)
             = JS.Throw (JS.errorObject "TypeError" m))
  <-> exists err,
        net (Api.scrapeRequest env) = JS.Throw err
        /\ (JS.isNullish err = true
            \/ exists response data,
                 JS.getProp err "response" = JS.Return response
                 /\ JS.truthy response = true
                 /\ JS.getProp response "data" = JS.Return data
                 /\ JS.isNullish data = true).
Proof.
  intros _.
  rewrite fetchScrapedData_run. cbn [snd].
  destruct (net (Api.scrapeRequest env)) as [response|err] eqn:Hnet.
  - split.
    + intros [m H].
      destruct (snd (Api.scrapeTry env net)) as [p|caught] eqn:Htry;
        [discriminate|].
      destruct (scrapeTry_answered_throws env net response caught Hnet Htry)
        as (n & m' & ->).
      rewrite scrapeCatch_error_object in H. cbn [snd] in H.
      unfold JS.newError, JS.errorObject in H. discriminate H.
    + intros (e & H & _). discriminate H.
  - rewrite (scrapeTry_rejected env net err Hnet).
    unfold Api.scrapeCatch, Api.bind, Api.prop, Api.lift, Api.throw.
    split.
    + intros [m H]. exists err. split; [reflexivity|].
      destruct (JS.isNullish err) eqn:Hnull; [now left | right].
      destruct (getProp_not_nullish err "response" Hnull) as [response Hr].
      destruct (getProp_not_nullish err "request" Hnull) as [req Hq].
      destruct (getProp_not_nullish err "message" Hnull) as [msg Hm].
      rewrite Hr in H. destruct (JS.truthy response) eqn:Ht.
      * destruct (getProp_cases response "data") as [[data Hd]|Hd];
          rewrite Hd in H.
        -- exists response, data. repeat split; try assumption.
           destruct (JS.isNullish data) eqn:Hdn; [reflexivity|].
           destruct (getProp_not_nullish data "error" Hdn) as [e He].
           rewrite He in H. cbn [snd] in H. unfold JS.newError, JS.errorObject in H. discriminate H.
        -- destruct response; simpl in Ht, Hd; discriminate.
      * rewrite Hq in H. destruct (JS.truthy req).
        -- cbn [snd] in H. unfold JS.newError, JS.errorObject in H. discriminate H.
        -- rewrite Hm in H. cbn [snd] in H. unfold JS.newError, JS.errorObject in H. discriminate H.
    + intros (e & [= <-] & [Hnull|(response & data & Hr & Ht & Hd & Hdn)]).
      * rewrite (getProp_nullish err "response" Hnull). cbn [snd].
        unfold JS.typeError. eauto.
      * rewrite Hr, Ht, Hd, (getProp_nullish data "error" Hdn). cbn [snd].
        unfold JS.typeError. eauto.
Qed.

Lemma fetchScrapedData_TypeError_cases_witness :
  exists m,
    snd (Api.fetchScrapedData JS.VUndefined [JS.VStr "Agnes Tachyon"]
           (fun _ => JS.Throw emptyBodyError))
    = JS.Throw (JS.errorObject "TypeError" m).
Proof.
  apply (fetchScrapedData_TypeError_cases JS.VUndefined
           [JS.VStr "Agnes Tachyon"] (fun _ => JS.Throw emptyBodyError)).
  - intros err [= <-]. reflexivity.
  - exists emptyBodyError. split; [reflexivity|]. right.
    exists (JS.VObj [("status", JS.VNum 502); ("data", JS.VNull)]), JS.VNull.
    repeat split.
Defined.

(** ** The hook and the search of [App] *)

Section SearchFacts.
Import JS Api Hook.

Lemma jsOr_message (m : string) :
  exists shown,
    shown <> ""
    /\ jsOr (VStr m) (VStr "An unexpected error occurred") = VStr shown
    /\ (m <> "" -> shown = m).
Proof.
  unfold jsOr. simpl. destruct (String.eqb_spec m "") as [->|Hne]; simpl.
  - exists "An unexpected error occurred". repeat split; [discriminate|].
    intros H. now elim H.
  - exists m. auto.
Qed.

Lemma handleSearch_state (env : value) (searchQuery : string)
    (net : network) (s : apiState) :
  fst (handleSearch env searchQuery net s)
  = fst (executeSettle (snd (fetchScrapedData env [VStr searchQuery] net))
           (executeStart s)).
Proof.
  unfold handleSearch.
  pose proof (execute_state (fetchScrapedData env) [VStr searchQuery] net s)
    as H.
  destruct (execute (fetchScrapedData env) [VStr searchQuery] net s)
    as [[s' sent] r].
  exact H.
Qed.

Lemma fetchScrapedData_outcome (env : value) (args : list value)
    (net : network) :
  (exists payload, snd (fetchScrapedData env args net) = Return payload)
  \/ (exists n m,
        snd (fetchScrapedData env args net) = Throw (errorObject n m)).
Proof.
  rewrite fetchScrapedData_run. cbn [snd].
  destruct (snd (scrapeTry env net)) as [p|err]; [left; eauto|].
  right. destruct (scrapeCatch_throws err net) as (n & m & ->).
  exists n, m. reflexivity.
Qed.

Lemma executeSettle_error_object (n m : string) (s : apiState) :
  fst (executeSettle (Throw (errorObject n m)) s)
  = {| data := VNull; loading := false;
       error := jsOr (VStr m) (VStr "An unexpected error occurred") |}.
Proof. reflexivity. Qed.

End SearchFacts.

(** X3.  A search from [App] always settles, whatever the backend does and
    whatever the state was before: [loading] ends false, and the state is
    either the payload with no error, or no data with an error that is a
    non-empty string (the message of what [fetchScrapedData] threw, or "An
    unexpected error occurred" when that message is empty).  The state before
    the search has no influence on the state after it. *)
Theorem handleSearch_settles
    (env : JS.value) (searchQuery : string) (net : Api.network)
    (s s0 : Hook.apiState) :
  let s' := fst (Hook.handleSearch env searchQuery net s) in
  Hook.loading s' = false
  /\ ((exists payload,
          snd (Api.fetchScrapedData env [JS.VStr searchQuery] net)
          = JS.Return payload
          /\ s' = {| Hook.data := payload; Hook.loading := false;
                     Hook.error := JS.VNull |})
      \/ (exists name m shown,
            snd (Api.fetchScrapedData env [JS.VStr searchQuery] net)
            = JS.Throw (JS.errorObject name m)
            /\ shown <> "" /\ (m <> "" -> shown = m)
            /\ s' = {| Hook.data := JS.VNull; Hook.loading := false;
                       Hook.error := JS.VStr shown |}))
  /\ s' = fst (Hook.handleSearch env searchQuery net s0).
Proof.
  intros s'. subst s'. rewrite !handleSearch_state.
  destruct (fetchScrapedData_outcome env [JS.VStr searchQuery] net)
    as [[p Hp]|(n & m & Hm)].
  - rewrite Hp. cbn [Hook.executeSettle fst Hook.loading].
    split; [reflexivity|]. split; [|reflexivity]. left. eauto.
  - rewrite Hm, !executeSettle_error_object.
    destruct (jsOr_message m) as (shown & Hne & -> & Hsame).
    cbn [Hook.loading]. split; [reflexivity|]. split; [|reflexivity].
    right. exists n, m, shown. auto.
Qed.

(** X4.  [ErrorDisplay] after a search from [App]: it always renders.  It
    renders nothing when the search succeeded, and otherwise one alert with
    the text "Error:", a space and the error string of the state, which is
    never empty. *)
Theorem ErrorDisplay_after_search
    (env : JS.value) (searchQuery : string) (net : Api.network)
    (s : Hook.apiState) :
  let s' := fst (Hook.handleSearch env searchQuery net s) in
  ((exists payload,
       snd (Api.fetchScrapedData env [JS.VStr searchQuery] net)
       = JS.Return payload)
   /\ Components.ErrorDisplay (Hook.error s') = Some View.NNull)
  \/ ((exists err,
         snd (Api.fetchScrapedData env [JS.VStr searchQuery] net)
         = JS.Throw err)
      /\ exists shown,
           shown <> "" /\ Hook.error s' = JS.VStr shown
           /\ Components.ErrorDisplay (Hook.error s')
              = Some (View.NElem "div"
                        [("className", "error"); ("role", "alert")]
                        [ View.NElem "p" []
                            [ View.NElem "strong" [] [View.NText "Error:"];
                              View.NText " ";
                              View.NText shown ] ])).
Proof.
  intros s'. subst s'. rewrite handleSearch_state.
  destruct (fetchScrapedData_outcome env [JS.VStr searchQuery] net)
    as [[p Hp]|(n & m & Hm)].
  - left. rewrite Hp. split; [eauto | reflexivity].
  - right. rewrite Hm, executeSettle_error_object. split; [eauto|].
    destruct (jsOr_message m) as (shown & Hne & -> & _).
    exists shown. cbn [Hook.error]. repeat split; [assumption|].
    unfold Components.ErrorDisplay. cbn [JS.truthy Components.renderChild].
    destruct (String.eqb_spec shown ""); [contradiction | reflexivity].
Qed.

(** X5.  [execute] is a transparent wrapper.  When the wrapped function
    returns, or throws anything but [null] and [undefined], [execute] ends the
    same way with the same value, sends exactly the requests that the function
    sent, and leaves a state that depends on the outcome alone, not on the
    state before the call. *)
Theorem execute_is_transparent
    (apiFunction : list JS.value -> Api.Async JS.value)
    (args : list JS.value) (net : Api.network) (s s0 : Hook.apiState) :
  (forall err, snd (apiFunction args net) = JS.Throw err ->
               JS.isNullish err = false) ->
  snd (Hook.execute apiFunction args net s) = snd (apiFunction args net)
  /\ snd (fst (Hook.execute apiFunction args net s))
     = fst (apiFunction args net)
  /\ fst (fst (Hook.execute apiFunction args net s))
     = fst (fst (Hook.execute apiFunction args net s0))
  /\ Hook.loading (fst (fst (Hook.execute apiFunction args net s))) = false.
Proof.
  intros Hnn. rewrite !execute_state, execute_completion.
  split; [|split].
  - destruct (snd (apiFunction args net)) as [r|err] eqn:Hout; [reflexivity|].
    destruct (getProp_not_nullish err "message" (Hnn err eq_refl)) as [m Hm].
    now rewrite (executeSettle_failure err m _ Hm).
  - unfold Hook.execute. destruct (apiFunction args net) as [sent out].
    destruct (Hook.executeSettle out (Hook.executeStart s)). reflexivity.
  - destruct (snd (apiFunction args net)) as [r|err] eqn:Hout;
      [split; reflexivity|].
    destruct (getProp_not_nullish err "message" (Hnn err eq_refl)) as [m Hm].
    rewrite !(executeSettle_failure err m _ Hm). split; reflexivity.
Qed.

Lemma execute_is_transparent_witness :
  snd (Hook.execute (Api.fetchScrapedData JS.VUndefined)
         [JS.VStr "Agnes Tachyon"] backendDown afterSuccess)
  = snd (Api.fetchScrapedData JS.VUndefined [JS.VStr "Agnes Tachyon"]
           backendDown)
  /\ snd (fst (Hook.execute (Api.fetchScrapedData JS.VUndefined)
                 [JS.VStr "Agnes Tachyon"] backendDown afterSuccess))
     = fst (Api.fetchScrapedData JS.VUndefined [JS.VStr "Agnes Tachyon"]
              backendDown)
  /\ fst (fst (Hook.execute (Api.fetchScrapedData JS.VUndefined)
                 [JS.VStr "Agnes Tachyon"] backendDown afterSuccess))
     = fst (fst (Hook.execute (Api.fetchScrapedData JS.VUndefined)
                   [JS.VStr "Agnes Tachyon"] backendDown Hook.initialState))
  /\ Hook.loading
       (fst (fst (Hook.execute (Api.fetchScrapedData JS.VUndefined)
                    [JS.VStr "Agnes Tachyon"] backendDown afterSuccess)))
     = false.
Proof.
  apply (execute_is_transparent (Api.fetchScrapedData JS.VUndefined)
           [JS.VStr "Agnes Tachyon"] backendDown afterSuccess
           Hook.initialState).
  intros err H. vm_compute in H. injection H as <-. reflexivity.
Defined.

(** ** The [useInput] hook *)

(** X6.  Without a validator the hook never reports an error: in every state
    it can reach, by typing, by [reset] or by the direct [setValue], [error]
    is null. *)
Theorem useInput_without_validator_no_error
    (initialValue : JS.value) (s : Input.inputState) :
  Input.reachable initialValue None s -> Input.error s = JS.VNull.
Proof.
  intros Hreach. induction Hreach as [|s s' _ IH Hstep]; [reflexivity|].
  destruct Hstep as [v s|s|v s]; simpl; [exact IH | reflexivity | exact IH].
Qed.

Lemma useInput_without_validator_no_error_witness :
  Input.error
    (Input.setValue (JS.VStr "Gold Ship")
       (fst (Input.handleChange None (JS.VStr "Agnes")
               (Input.initial (JS.VStr "")))))
  = JS.VNull.
Proof.
  apply (useInput_without_validator_no_error (JS.VStr "")).
  apply (Input.reachable_step (JS.VStr "") None
           (fst (Input.handleChange None (JS.VStr "Agnes")
                   (Input.initial (JS.VStr ""))))).
  - apply (Input.reachable_step (JS.VStr "") None
             (Input.initial (JS.VStr ""))).
    + apply Input.reachable_initial.
    + apply (Input.step_change (JS.VStr "") None (JS.VStr "Agnes")).
  - apply Input.step_setValue.
Defined.

(** X7.  With a validator, as long as the value changes only by typing and by
    [reset], the error shown belongs to the value shown: it is null, or it is
    the validator's verdict on the current value, or the validator throws on
    the current value (then the error is the one from before).  Right after
    typing a value on which the validator returns, the error is that verdict
    and the value is the one typed.  [reset] brings back the state the hook
    started in, whose value is the initial value given, or the empty string
    when none ([undefined]) was given. *)
Theorem useInput_error_matches_value
    (initialValue : JS.value)
    (validate : JS.value -> JS.completion JS.value)
    (s : Input.inputState) :
  Input.typed initialValue (Some validate) s ->
  (Input.error s = JS.VNull
   \/ validate (Input.value s) = JS.Return (Input.error s)
   \/ exists err, validate (Input.value s) = JS.Throw err)
  /\ (forall v verdict,
        validate v = JS.Return verdict ->
        fst (Input.handleChange (Some validate) v s)
        = {| Input.value := v; Input.error := verdict |})
  /\ Input.reset initialValue s = Input.initial initialValue
  /\ (initialValue <> JS.VUndefined ->
      Input.initial initialValue
      = {| Input.value := initialValue; Input.error := JS.VNull |})
  /\ Input.initial JS.VUndefined
     = {| Input.value := JS.VStr ""; Input.error := JS.VNull |}.
Proof.
  intros Htyped. split; [|split; [|split; [reflexivity|split; [|reflexivity]]]];
    [| |intros Hdef; destruct initialValue; try reflexivity; now elim Hdef].
  - induction Htyped as [|v s _ IH|s _ IH].
    + now left.
    + unfold Input.handleChange.
      destruct (validate v) as [verdict|err] eqn:Hv; simpl.
      * right. left. exact Hv.
      * right. right. eauto.
    + now left.
  - intros v verdict Hv. unfold Input.handleChange. now rewrite Hv.
Qed.

Lemma useInput_error_matches_value_witness :
  (Input.error emptiedInput = JS.VNull
   \/ requireName (Input.value emptiedInput)
      = JS.Return (Input.error emptiedInput)
   \/ exists err, requireName (Input.value emptiedInput) = JS.Throw err)
  /\ Input.error emptiedInput = JS.VStr "Enter a character name".
Proof.
  split; [|reflexivity].
  apply (useInput_error_matches_value (JS.VStr "Agnes") requireName).
  apply Input.typed_change. apply Input.typed_initial.
Defined.

(** ** The display components *)

Section ComponentFacts.
Import JS View Components.

Lemma upperAscii_idempotent (c : ascii) :
  upperAscii (upperAscii c) = upperAscii c.
Proof. destruct c as [[] [] [] [] [] [] [] []]; reflexivity. Qed.

Lemma upperAscii_lowerAscii (c : ascii) :
  upperAscii (lowerAscii c) = upperAscii c.
Proof. destruct c as [[] [] [] [] [] [] [] []]; reflexivity. Qed.

Lemma toUpperCase_idempotent (s : string) :
  toUpperCase (toUpperCase s) = toUpperCase s.
Proof.
  unfold toUpperCase. induction s as [|c rest IH]; simpl;
    [reflexivity | now rewrite upperAscii_idempotent, IH].
Qed.

Lemma toUpperCase_toLowerCase (s : string) :
  toUpperCase (toLowerCase s) = toUpperCase s.
Proof.
  unfold toUpperCase, toLowerCase. induction s as [|c rest IH]; simpl;
    [reflexivity | now rewrite upperAscii_lowerAscii, IH].
Qed.

Lemma toUpperCase_empty (s : string) : toUpperCase s = "" <-> s = "".
Proof. destruct s; simpl; split; intros H; reflexivity || discriminate. Qed.

(** The tree that [RankDisplay] builds for a rank that is not empty. *)
Lemma RankDisplay_shown (rank : string) (characterName : option string) :
  rank <> "" ->
  RankDisplay (Some rank) characterName
  = NElem "div" [("className", "rank-display-container")]
      [ NElem "div" [("className", "rank-badge " ++ getRankClass rank)]
          [ NElem "div" [("className", "rank-label")] [NText "Overall Tier"];
            NElem "div" [("className", "rank-value")]
              [NText (toUpperCase rank)];
            NElem "div" [("className", "rank-sublabel")] [NText "Rank"] ];
        match characterName with
        | None => NNull
        | Some "" => NText ""
        | Some name =>
            NElem "div" [("className", "rank-description")]
              [ NElem "p" []
                  [ NText name; NText " is ranked ";
                    NElem "strong" [] [NText (toUpperCase rank)];
                    NText " tier in the current meta" ] ]
        end ].
Proof. intros Hne. destruct rank; [contradiction | reflexivity]. Qed.

Lemma byClass_raceCard (m : raceCard) (index : nat) :
  byClass "race-card" (raceCardNode m index) = [raceCardNode m index].
Proof. reflexivity. Qed.

Lemma byClass_raceCards (l : list raceCard) (k : nat) :
  filter (hasClass "race-card")
    (flat_map elements (mapIndexFrom k raceCardNode l))
  = mapIndexFrom k raceCardNode l.
Proof.
  revert k. induction l as [|m rest IH]; intros k; [reflexivity|].
  cbn [mapIndexFrom flat_map]. rewrite filter_app, IH.
  change (filter (hasClass "race-card") (elements (raceCardNode m k)))
    with (byClass "race-card" (raceCardNode m k)).
  now rewrite byClass_raceCard.
Qed.

Lemma no_title_in_cards (l : list raceCard) (k : nat) :
  filter (hasClass "races-title")
    (flat_map elements (mapIndexFrom k raceCardNode l))
  = [].
Proof.
  revert k. induction l as [|m rest IH]; intros k; [reflexivity|].
  cbn [mapIndexFrom flat_map]. rewrite filter_app, IH. reflexivity.
Qed.

End ComponentFacts.

(** X8.  For a rank of ASCII characters, the colour class of the rank badge
    does not depend on the casing of the rank: the rank, its upper-case and
    its lower-case form get the same class.  The class is [rank-ss],
    [rank-s], [rank-a] or [rank-b] exactly for the ranks that read SS, S, A,
    B with case ignored, and [rank-default] for every other such rank. *)
Theorem getRankClass_ignores_case (rank : string) :
  JS.isAscii rank = true ->
  View.getRankClass (JS.toUpperCase rank) = View.getRankClass rank
  /\ View.getRankClass (JS.toLowerCase rank) = View.getRankClass rank
  /\ (View.getRankClass rank = "rank-ss" <-> JS.toUpperCase rank = "SS")
  /\ (View.getRankClass rank = "rank-s" <-> JS.toUpperCase rank = "S")
  /\ (View.getRankClass rank = "rank-a" <-> JS.toUpperCase rank = "A")
  /\ (View.getRankClass rank = "rank-b" <-> JS.toUpperCase rank = "B")
  /\ (View.getRankClass rank = "rank-default"
      <-> ~ In (JS.toUpperCase rank) ["SS"; "S"; "A"; "B"]).
Proof.
  intros _. unfold View.getRankClass.
  rewrite toUpperCase_idempotent, toUpperCase_toLowerCase.
  split; [reflexivity|]. split; [reflexivity|].
  destruct (String.eqb_spec (JS.toUpperCase rank) "SS") as [->|Hss].
  { simpl. repeat split; intros H; try discriminate H; try reflexivity.
    elim H. now left. }
  destruct (String.eqb_spec (JS.toUpperCase rank) "S") as [->|Hs].
  { simpl. repeat split; intros H; try discriminate H; try reflexivity.
    elim H. right. now left. }
  destruct (String.eqb_spec (JS.toUpperCase rank) "A") as [->|Ha].
  { simpl. repeat split; intros H; try discriminate H; try reflexivity.
    elim H. right. right. now left. }
  destruct (String.eqb_spec (JS.toUpperCase rank) "B") as [->|Hb].
  { simpl. repeat split; intros H; try discriminate H; try reflexivity.
    elim H. right. right. right. now left. }
  repeat split; intros H; try discriminate H; try contradiction;
    try reflexivity.
  simpl. intros [E|[E|[E|[E|[]]]]]; symmetry in E; contradiction.
Qed.

Lemma getRankClass_ignores_case_witness :
  View.getRankClass (JS.toUpperCase "sS") = View.getRankClass "sS"
  /\ View.getRankClass (JS.toLowerCase "sS") = View.getRankClass "sS"
  /\ View.getRankClass "sS" = "rank-ss".
Proof.
  destruct (getRankClass_ignores_case "sS") as (H1 & H2 & H3 & _).
  - reflexivity.
  - split; [exact H1|]. split; [exact H2|]. apply H3. reflexivity.
Defined.

(** X9.  [RankDisplay] renders nothing exactly when the rank is missing or
    empty.  What it renders does not depend on the casing of the rank: the
    rank and its upper-case form give the same output. *)
Theorem RankDisplay_ignores_case
    (rank : string) (characterName : option string) :
  View.RankDisplay (Some (JS.toUpperCase rank)) characterName
  = View.RankDisplay (Some rank) characterName
  /\ (View.RankDisplay (Some rank) characterName = View.NNull <-> rank = "")
  /\ View.RankDisplay None characterName = View.NNull.
Proof.
  split; [|split; [|reflexivity]].
  - destruct (String.eqb_spec rank "") as [->|Hne]; [reflexivity|].
    assert (Hup : JS.toUpperCase rank <> "")
      by (intros H; apply Hne; now apply toUpperCase_empty).
    rewrite (RankDisplay_shown _ characterName Hup),
      (RankDisplay_shown _ characterName Hne).
    rewrite toUpperCase_idempotent.
    unfold View.getRankClass. now rewrite toUpperCase_idempotent.
  - split.
    + intros H. destruct (String.eqb_spec rank "") as [->|Hne]; [reflexivity|].
      rewrite (RankDisplay_shown _ characterName Hne) in H. discriminate H.
    + intros ->. reflexivity.
Qed.

(** X10.  [RaceList] renders one card per match, in the order of the list
    and keyed by position, and the number in its heading is the number of
    cards. *)
Theorem RaceList_one_card_per_match (races : list View.raceCard) :
  View.byClass "race-card" (View.RaceList (Some races))
  = View.mapIndex View.raceCardNode races
  /\ List.length (View.byClass "race-card" (View.RaceList (Some races)))
     = List.length races
  /\ (races <> [] ->
      View.byClass "races-title" (View.RaceList (Some races))
      = [View.NElem "h3" [("className", "races-title")]
           [ View.NText "🏁 Races Mentioned in Events (";
             View.NText (JS.string_of_Z (Z.of_nat (List.length races)));
             View.NText ")" ]]).
Proof.
  assert (H : View.byClass "race-card" (View.RaceList (Some races))
              = View.mapIndex View.raceCardNode races).
  { destruct races as [|m rest]; [reflexivity|].
    unfold View.RaceList, View.byClass, View.mapIndex.
    cbn [View.elements flat_map].
    set (cards := View.mapIndexFrom 0 View.raceCardNode (m :: rest)).
    rewrite !app_nil_r. cbn [app filter].
    change (View.hasClass "race-card" (View.NElem "div" [("className", "races-section")] ?c))
      with false.
    change (View.hasClass "race-card" (View.NElem "h3" [("className", "races-title")] ?c))
      with false.
    change (View.hasClass "race-card" (View.NElem "div" [("className", "races-grid")] ?c))
      with false.
    cbv iota. subst cards. apply byClass_raceCards. }
  split; [exact H|]. split.
  - rewrite H. apply mapIndexFrom_length.
  - intros Hne. destruct races as [|m rest]; [contradiction|].
    unfold View.RaceList, View.byClass, View.mapIndex.
    cbn [View.elements flat_map].
    set (cards := View.mapIndexFrom 0 View.raceCardNode (m :: rest)).
    rewrite !app_nil_r. cbn [app filter].
    change (View.hasClass "races-title" (View.NElem "div" [("className", "races-section")] ?c))
      with false.
    change (View.hasClass "races-title" (View.NElem "h3" [("className", "races-title")] ?c))
      with true.
    change (View.hasClass "races-title" (View.NElem "div" [("className", "races-grid")] ?c))
      with false.
    cbv iota. f_equal. subst cards. apply no_title_in_cards.
Qed.

(** X11.  [StatsDisplay] renders nothing for missing stats.  For stats whose
    five fields are each a number or missing, it does not throw and renders
    five tiles, always in the order Speed, Stamina, Power, Guts, Wit; the tile
    of a missing field is there with an empty value. *)
Theorem StatsDisplay_five_tiles (stats : JS.value) :
  JS.truthy stats = true ->
  (forall k, In k ["speed"; "stamina"; "power"; "guts"; "wit"] ->
             JS.getProp stats k = JS.Return JS.VUndefined
             \/ exists n, JS.getProp stats k = JS.Return (JS.VNum n)) ->
  exists tree,
    Components.StatsDisplay stats = Some tree
    /\ View.byClass "stat-name" tree
       = map (fun name =>
                View.NElem "div" [("className", "stat-name")]
                  [View.NText name])
             ["Speed"; "Stamina"; "Power"; "Guts"; "Wit"]
    /\ map View.children (View.byClass "stat-value" tree)
       = map (fun k =>
                match JS.getProp stats k with
                | JS.Return (JS.VNum n) => [View.NText (JS.string_of_Z n)]
                | _ => [View.NNull]
                end)
             ["speed"; "stamina"; "power"; "guts"; "wit"].
Proof.
  intros Htruthy Hfields.
  unfold Components.StatsDisplay, Components.statField. rewrite Htruthy.
  cbn [negb map].
  pose proof (Hfields "speed" ltac:(simpl; auto)) as H1.
  pose proof (Hfields "stamina" ltac:(simpl; auto)) as H2.
  pose proof (Hfields "power" ltac:(simpl; auto)) as H3.
  pose proof (Hfields "guts" ltac:(simpl; auto 6)) as H4.
  pose proof (Hfields "wit" ltac:(simpl; auto 6)) as H5.
  destruct H1 as [H1|[n1 H1]], H2 as [H2|[n2 H2]], H3 as [H3|[n3 H3]],
    H4 as [H4|[n4 H4]], H5 as [H5|[n5 H5]];
    rewrite H1, H2, H3, H4, H5; eexists; split; try reflexivity;
    split; reflexivity.
Qed.

Lemma StatsDisplay_five_tiles_witness :
  exists tree,
    Components.StatsDisplay statsWithoutWit = Some tree
    /\ View.byClass "stat-name" tree
       = map (fun name =>
                View.NElem "div" [("className", "stat-name")]
                  [View.NText name])
             ["Speed"; "Stamina"; "Power"; "Guts"; "Wit"]
    /\ map View.children (View.byClass "stat-value" tree)
       = map (fun k =>
                match JS.getProp statsWithoutWit k with
                | JS.Return (JS.VNum n) => [View.NText (JS.string_of_Z n)]
                | _ => [View.NNull]
                end)
             ["speed"; "stamina"; "power"; "guts"; "wit"].
Proof.
  apply (StatsDisplay_five_tiles statsWithoutWit).
  - reflexivity.
  - intros k Hk. simpl in Hk.
    destruct Hk as [<-|[<-|[<-|[<-|[<-|[]]]]]];
      (left; reflexivity) || (right; eexists; reflexivity).
Defined.

(** X12.  [EventList] flattens one level and no more.  For every array,
    however nested, its sections are those of [events.flat()], one per
    element and in that order; an element that is still an array after the
    flattening gets a section too, and that section is the same whatever the
    array holds: none of the events inside is shown. *)
Theorem EventList_flattens_one_level
    (items : list View.item) (title : option string) :
  View.byClass "event-section" (View.EventList (Some items) title)
  = View.mapIndex View.eventSection (View.flat items)
  /\ (forall inner index,
        View.eventSection (View.IArray inner) index
        = View.eventSection (View.IArray []) index)
  /\ (forall inner rest,
        View.flat (View.IArray (View.IArray inner :: rest) :: nil)
        = View.IArray inner :: rest).
Proof.
  split; [|split; [reflexivity|]].
  - apply EventList_sections.
  - intros inner rest. unfold View.flat. simpl. now rewrite app_nil_r.
Qed.

(** ** The earlier [App] *)

(** X14.  The earlier [handleScrape] always ends with [loading] false,
    whatever the outcome, also when the rejection is [null] or [undefined]
    (its [finally] block).  It replaces the data only on success: after any
    failure the data is what it was before, so an error can stand beside old
    data. *)
Theorem legacy_handleScrape_stops_loading
    (outcome : JS.completion JS.value) (s : Hook.apiState) :
  Hook.loading (fst (Legacy.handleScrapeSettle outcome s)) = false
  /\ (forall result,
        outcome = JS.Return result ->
        fst (Legacy.handleScrapeSettle outcome s)
        = {| Hook.data := result; Hook.loading := false;
             Hook.error := JS.VNull |})
  /\ (forall err,
        outcome = JS.Throw err ->
        Hook.data (fst (Legacy.handleScrapeSettle outcome s)) = Hook.data s)
  /\ (forall err m,
        outcome = JS.Throw err ->
        JS.getProp err "message" = JS.Return m ->
        Hook.error (fst (Legacy.handleScrapeSettle outcome s)) = m).
Proof.
  unfold Legacy.handleScrapeSettle.
  destruct outcome as [result|err].
  - split; [reflexivity|]. split; [|split]; intros; try discriminate.
    now injection H as <-.
  - destruct (JS.getProp err "message") as [m|te] eqn:Hm;
      (split; [reflexivity|]); (split; [intros; discriminate|]);
      (split; [reflexivity|]); intros e m' [= <-] Hm'; cbn [fst Hook.error];
      congruence.
Qed.

(** X15.  The hook against the [handleScrape] it replaced, on the same
    outcome and the same state before.  After a success the two states are
    equal.  After a rejection with an error object both end with [loading]
    false and, when the message is truthy, the same error; but the hook clears
    the data and the earlier code kept it, and for a falsy message the hook
    puts "An unexpected error occurred" where the earlier code stored the
    falsy message itself.  After a rejection with [null] or [undefined] the
    earlier code stops loading and the hook does not. *)
Theorem hook_against_legacy (s : Hook.apiState) :
  (forall result,
      fst (Hook.executeSettle (JS.Return result) (Hook.executeStart s))
      = fst (Legacy.handleScrapeSettle (JS.Return result) s))
  /\ (forall err m,
        JS.getProp err "message" = JS.Return m ->
        let hook := fst (Hook.executeSettle (JS.Throw err)
                           (Hook.executeStart s)) in
        let legacy := fst (Legacy.handleScrapeSettle (JS.Throw err) s) in
        Hook.loading hook = false /\ Hook.loading legacy = false
        /\ Hook.data hook = JS.VNull /\ Hook.data legacy = Hook.data s
        /\ Hook.error legacy = m
        /\ (JS.truthy m = true -> Hook.error hook = m)
        /\ (JS.truthy m = false ->
            Hook.error hook = JS.VStr "An unexpected error occurred"))
  /\ (forall err,
        JS.isNullish err = true ->
        Hook.loading (fst (Hook.executeSettle (JS.Throw err)
                             (Hook.executeStart s))) = true
        /\ Hook.loading (fst (Legacy.handleScrapeSettle (JS.Throw err) s))
           = false).
Proof.
  split; [reflexivity|]. split.
  - intros err m Hm hook legacy. subst hook legacy.
    rewrite (executeSettle_failure err m _ Hm).
    unfold Legacy.handleScrapeSettle. rewrite Hm. cbn.
    repeat split; unfold JS.jsOr; intros H; now rewrite H.
  - intros err Hnull.
    rewrite (executeSettle_nullish err _ Hnull).
    unfold Legacy.handleScrapeSettle.
    rewrite (getProp_nullish err "message" Hnull). split; reflexivity.
Qed.

(** ** [getCharacterName] *)

Section TextFacts.
Import JS Text.

Lemma trimStart_clean (s : string) : startsWhite (trimStart s) = false.
Proof.
  induction s as [|c rest IH]; [reflexivity|]. simpl.
  destruct (isWhite c) eqn:Hc; [exact IH | simpl; exact Hc].
Qed.

Lemma trimEnd_clean (s : string) : endsWhite (trimEnd s) = false.
Proof.
  induction s as [|c rest IH]; [reflexivity|]. cbn [trimEnd].
  destruct (trimEnd rest) as [|d rest'] eqn:Hrest.
  - destruct (isWhite c) eqn:Hc; simpl; [reflexivity | exact Hc].
  - rewrite andb_false_r. exact IH.
Qed.

Lemma trimEnd_keeps_start (s : string) :
  startsWhite s = false -> startsWhite (trimEnd s) = false.
Proof.
  destruct s as [|c rest]; [reflexivity|]. cbn [trimEnd startsWhite].
  intros Hc. rewrite Hc. cbn [andb startsWhite]. exact Hc.
Qed.

Lemma trim_clean (s : string) :
  startsWhite (trim s) = false /\ endsWhite (trim s) = false.
Proof.
  unfold trim. split; [|apply trimEnd_clean].
  apply trimEnd_keeps_start, trimStart_clean.
Qed.

Lemma trimEnd_fixed (s : string) : endsWhite s = false -> trimEnd s = s.
Proof.
  induction s as [|c rest IH]; [reflexivity|]. intros H. cbn [trimEnd].
  destruct rest as [|d rest'].
  - simpl in H. rewrite H. reflexivity.
  - rewrite (IH H). rewrite andb_false_r. reflexivity.
Qed.

Lemma trimEnd_app_space (s : string) : trimEnd (s ++ " ") = trimEnd s.
Proof.
  induction s as [|c rest IH]; [reflexivity|].
  cbn [append trimEnd]. now rewrite IH.
Qed.

Lemma trimStart_fixed (s : string) : startsWhite s = false -> trimStart s = s.
Proof. destruct s as [|c rest]; [reflexivity|]. simpl. now intros ->. Qed.

Lemma length_trimStart (s : string) :
  String.length (trimStart s) <= String.length s.
Proof.
  induction s as [|c rest IH]; [apply le_n|]. simpl.
  destruct (isWhite c); simpl; lia.
Qed.

Lemma length_trimEnd (s : string) :
  String.length (trimEnd s) <= String.length s.
Proof.
  induction s as [|c rest IH]; [apply le_n|]. cbn [trimEnd].
  destruct (isWhite c && String.eqb (trimEnd rest) ""); simpl; lia.
Qed.

Lemma length_drop (n : nat) (s : string) :
  String.length (drop n s) <= String.length s.
Proof.
  revert s. induction n as [|n IH]; intros s; [apply le_n|].
  destruct s as [|c rest]; simpl; [apply le_n|].
  specialize (IH rest). lia.
Qed.

Lemma length_removeFirst (pattern s : string) :
  String.length (removeFirst pattern s) <= String.length s.
Proof.
  induction s as [|c rest IH]; cbn [removeFirst].
  - destruct (matchesAt pattern ""); [apply length_drop | apply le_n].
  - destruct (matchesAt pattern (String c rest)); [apply length_drop|].
    simpl. lia.
Qed.

(** Without a match the string is left as it is. *)
Lemma removeFirst_no_match (pattern s : string) :
  Core.includes (toLowerCase pattern) (toLowerCase s) = false ->
  removeFirst pattern s = s.
Proof.
  induction s as [|c rest IH]; intros H.
  - cbn [removeFirst]. destruct (matchesAt pattern "") eqn:Hm; [|reflexivity].
    unfold matchesAt in Hm. simpl in H. rewrite orb_false_r in H.
    simpl in Hm. congruence.
  - cbn [removeFirst]. unfold matchesAt.
    change (toLowerCase (String c rest))
      with (String (lowerAscii c) (toLowerCase rest)) in *.
    cbn [Core.includes] in H. apply orb_false_iff in H. destruct H as [-> H].
    now rewrite (IH H).
Qed.

Lemma lowerAscii_space (c : ascii) : lowerAscii c = " "%char -> c = " "%char.
Proof. destruct c as [[] [] [] [] [] [] [] []]; intros H; easy. Qed.

Lemma prefix_app_long (p a b : string) :
  String.length p <= String.length a ->
  String.prefix p (a ++ b) = String.prefix p a.
Proof.
  revert a. induction p as [|c p IH]; intros a H.
  - destruct a, b; reflexivity.
  - destruct a as [|d a]; [simpl in H; lia|].
    cbn [append String.prefix]. destruct (ascii_dec c d); [|reflexivity].
    apply IH. simpl in H. lia.
Qed.

Ltac split_decisions :=
  repeat match goal with
         | |- context [ascii_dec ?a ?b] =>
             is_var b; destruct (ascii_dec a b); [subst b | reflexivity]
         end.

(** The phrase cannot begin in the last twelve characters before
    " hidden events" and run into it. *)
Lemma no_straddle (v : string) :
  v <> "" -> String.length v <= 12 ->
  String.prefix "hidden events" (v ++ " hidden events") = false.
Proof.
  intros Hne Hlen.
  destruct v as [|c1 v]; [contradiction|].
  do 12 (destruct v as [|? v];
         [cbn [append String.prefix]; split_decisions; reflexivity|]).
  simpl in Hlen. lia.
Qed.

Lemma removeFirst_match (pattern s : string) :
  matchesAt pattern s = true ->
  removeFirst pattern s = drop (String.length pattern) s.
Proof. intros H. destruct s; cbn [removeFirst]; now rewrite H. Qed.

Lemma removeFirst_skip (pattern : string) (c : ascii) (rest : string) :
  matchesAt pattern (String c rest) = false ->
  removeFirst pattern (String c rest) = String c (removeFirst pattern rest).
Proof. intros H. cbn [removeFirst]. now rewrite H. Qed.

Lemma drop_all (n : nat) (s : string) : String.length s <= n -> drop n s = "".
Proof.
  revert s. induction n as [|n IH]; intros s H.
  - destruct s; [reflexivity | simpl in H; lia].
  - destruct s as [|c rest]; [reflexivity|]. simpl. apply IH. simpl in H. lia.
Qed.

(** A title that ends in " Hidden Events" (in any casing) and has the phrase
    nowhere before loses exactly the phrase. *)
Lemma removeFirst_suffix (name suffix : string) :
  toLowerCase suffix = " hidden events" ->
  Core.includes "hidden events" (toLowerCase name) = false ->
  removeFirst "Hidden Events" (name ++ suffix) = name ++ " ".
Proof.
  intros Hsuffix. induction name as [|a name IH]; intros Hfree.
  - destruct suffix as [|c rest]; [discriminate|].
    change (toLowerCase (String c rest))
      with (String (lowerAscii c) (toLowerCase rest)) in Hsuffix.
    injection Hsuffix as Hc Hrest. apply lowerAscii_space in Hc. subst c.
    cbn [append]. rewrite removeFirst_skip.
    + rewrite removeFirst_match.
      * rewrite drop_all; [reflexivity|].
        rewrite <- toLowerCase_length, Hrest. apply le_n.
      * unfold matchesAt. rewrite Hrest. reflexivity.
    + unfold matchesAt.
      change (toLowerCase (String " " rest))
        with (String " "%char (toLowerCase rest)).
      reflexivity.
  - change (toLowerCase (String a name))
      with (String (lowerAscii a) (toLowerCase name)) in Hfree.
    cbn [Core.includes] in Hfree. apply orb_false_iff in Hfree.
    destruct Hfree as [Hhere Hlater].
    cbn [append]. rewrite removeFirst_skip; [now rewrite (IH Hlater)|].
    unfold matchesAt.
    change (String a (name ++ suffix)) with (String a name ++ suffix).
    rewrite toLowerCase_app, Hsuffix.
    change (toLowerCase "Hidden Events") with "hidden events".
    destruct (le_lt_dec (String.length (String a name)) 12) as [Hshort|Hlong].
    + apply no_straddle; [discriminate|]. now rewrite toLowerCase_length.
    + rewrite prefix_app_long; [exact Hhere|].
      rewrite toLowerCase_length. simpl in *. lia.
Qed.

End TextFacts.

(** X16.  For data with a non-empty title of ASCII characters,
    [getCharacterName] returns a string that neither starts nor ends with
    white space and is no longer than the title; when the title has no
    "Hidden Events" in any casing, it is the trimmed title. *)
Theorem getCharacterName_is_trimmed (data : JS.value) (title : string) :
  JS.truthy data = true ->
  JS.getProp data "title" = JS.Return (JS.VStr title) ->
  title <> "" ->
  JS.isAscii title = true ->
  exists name,
    Components.getCharacterName data = JS.Return (JS.VStr name)
    /\ Text.startsWhite name = false
    /\ Text.endsWhite name = false
    /\ String.length name <= String.length title
    /\ (Core.includes "hidden events" (JS.toLowerCase title) = false ->
        name = Text.trim title).
Proof.
  intros Hdata Htitle Hne _.
  exists (Text.trim (Text.removeFirst "Hidden Events" title)).
  unfold Components.getCharacterName. rewrite Hdata, Htitle. cbn [negb JS.truthy].
  destruct (String.eqb_spec title "") as [|_]; [contradiction|].
  cbn [negb]. split; [reflexivity|].
  destruct (trim_clean (Text.removeFirst "Hidden Events" title)) as [Hs He].
  repeat split; try assumption.
  - unfold Text.trim.
    pose proof (length_trimEnd
                  (Text.trimStart (Text.removeFirst "Hidden Events" title))).
    pose proof (length_trimStart (Text.removeFirst "Hidden Events" title)).
    pose proof (length_removeFirst "Hidden Events" title). lia.
  - intros Hfree. now rewrite (removeFirst_no_match "Hidden Events" title Hfree).
Qed.

Lemma getCharacterName_is_trimmed_witness :
  exists name,
    Components.getCharacterName agnesPayload = JS.Return (JS.VStr name)
    /\ Text.startsWhite name = false
    /\ Text.endsWhite name = false
    /\ String.length name <= String.length "Agnes Tachyon hidden EVENTS".
Proof.
  destruct (getCharacterName_is_trimmed agnesPayload
              "Agnes Tachyon hidden EVENTS")
    as (name & H1 & H2 & H3 & H4 & _).
  - reflexivity.
  - reflexivity.
  - discriminate.
  - reflexivity.
  - exists name. auto.
Defined.

(** X17.  When the title is a name of ASCII characters followed by
    " Hidden Events", in any casing of the suffix, and the name has no
    surrounding white space and does not itself contain the phrase,
    [getCharacterName] returns the name. *)
Theorem getCharacterName_strips_suffix
    (data : JS.value) (name suffix : string) :
  JS.truthy data = true ->
  JS.getProp data "title" = JS.Return (JS.VStr (name ++ suffix)) ->
  JS.isAscii name = true ->
  JS.toLowerCase suffix = " hidden events" ->
  Text.startsWhite name = false ->
  Text.endsWhite name = false ->
  Core.includes "hidden events" (JS.toLowerCase name) = false ->
  Components.getCharacterName data = JS.Return (JS.VStr name).
Proof.
  intros Hdata Htitle _ Hsuffix Hstart Hend Hfree.
  unfold Components.getCharacterName. rewrite Hdata, Htitle.
  cbn [negb JS.truthy].
  assert (Hne : String.eqb (name ++ suffix) "" = false).
  { destruct suffix; [discriminate|]. destruct name; reflexivity. }
  rewrite Hne. cbn [negb].
  rewrite (removeFirst_suffix name suffix Hsuffix Hfree).
  do 2 f_equal. unfold Text.trim.
  destruct name as [|c rest]; [reflexivity|].
  rewrite trimStart_fixed by exact Hstart.
  now rewrite trimEnd_app_space, trimEnd_fixed.
Qed.

Lemma getCharacterName_strips_suffix_witness :
  Components.getCharacterName agnesPayload
  = JS.Return (JS.VStr "Agnes Tachyon").
Proof.
  apply (getCharacterName_strips_suffix agnesPayload
           "Agnes Tachyon" " hidden EVENTS"); reflexivity.
Defined.
